(** * Validated fetch and mutation helpers of modern-react-template-lite

    A shallow embedding of [src/queries/fetch.ts], [src/queries/mutate.ts]
    and [src/schemas/api.ts], with the properties of the validated-fetch
    utility stated and proved over it.

    Conventions of the embedding:
    - a JavaScript value is a [value]; the three error classes the code
      tells apart with [instanceof] are constructors of [value];
    - an [async] function returns an [Async A]: the [fetch] calls it issued,
      in order, and how its promise settled ([Returns] = fulfilled,
      [Throws] = rejected);
    - the runtime the code calls into ([fetch], [JSON.stringify], zod's
      format tests) is a [Platform] record every function takes. *)

From Stdlib Require Import ZArith String Ascii List Bool Lia.
From stdpp Require Import base option strings gmap fin_maps pretty.

Set Warnings "-register-all".
Open Scope Z_scope.
Open Scope string_scope.
Open Scope list_scope.

(* ===================================================================== *)
(** ** JavaScript values and outcomes                                     *)
(* ===================================================================== *)

(** One step of an issue's path: a key of an object or an index of an
    array. *)
Inductive PathItem : Type :=
  | Key (k : string)
  | Index (i : nat).

(** One entry of [ZodError.issues]. *)
Record ZodIssue := {
  issue_code : string;
  issue_path : list PathItem;
}.

(** JavaScript values.  [JsError name message] is an instance of [Error]
    that is neither a [FetchError] nor a [ZodError] ([TypeError],
    [SyntaxError], a plain [new Error(..)]).  [FetchError] is the class of
    fetch.ts: [status?: number] is [None] when [undefined], and
    [data?: unknown] is any value, [VUndefined] when the constructor is
    called without it.  Numeric payloads are carried through untouched by
    this code; the model keeps the integer-valued ones. *)
Inductive value : Type :=
  | VUndefined
  | VNull
  | VBool (b : bool)
  | VNum (n : Z)
  | VStr (s : string)
  | VArr (items : list value)
  | VObj (fields : list (string * value))
  | JsError (name message : string)
  | FetchError (message : string) (status : option Z) (data : value)
  | ZodError (issues : list ZodIssue).

Definition instanceof_FetchError (v : value) : bool :=
  match v with FetchError _ _ _ => true | _ => false end.

Definition instanceof_ZodError (v : value) : bool :=
  match v with ZodError _ => true | _ => false end.

Definition instanceof_Error (v : value) : bool :=
  match v with
  | JsError _ _ | FetchError _ _ _ | ZodError _ => true
  | _ => false
  end.

(** JavaScript truthiness, as [!x] reads it. *)
Definition truthy (v : value) : bool :=
  match v with
  | VUndefined | VNull => false
  | VBool b => b
  | VNum n => negb (Z.eqb n 0)
  | VStr s => negb (String.eqb s "")
  | _ => true
  end.

(** How a call or a promise ends: with a value, or with a thrown value
    (a rejection reason). *)
Inductive Outcome (A : Type) : Type :=
  | Returns (a : A)
  | Throws (e : value).
Arguments Returns {A} a.
Arguments Throws {A} e.

(* ===================================================================== *)
(** ** The platform: requests, responses, schemas                         *)
(* ===================================================================== *)

(** [HeadersInit], the three forms [headers] may take: a plain object, a
    [Headers] instance (given by its entries), or an array of name-value
    pairs.  The properties of a plain object are JavaScript values:
    strings for a typed caller, and the pairs themselves once an array
    has been spread into an object. *)
Inductive HeadersInit : Type :=
  | HeadersRecord (r : gmap string value)
  | HeadersInstance (entries : list (string * string))
  | HeadersPairs (pairs : list (string * string)).

(** The fields of [RequestInit] this repository sets. *)
Record RequestInit := {
  method : option string;
  headers : option HeadersInit;
  body : option string;
}.

(** What the code reads of a [Response]: [status], and what [json()]
    settles to (the parsed body, or the rejection of the parse). *)
Record Response := {
  status : Z;
  json : Outcome value;
}.

(** [response.ok]: the status is in the range 200-299. *)
Definition ok (response : Response) : bool :=
  Z.leb 200 (status response) && Z.leb (status response) 299.

(** A zod schema, through the one method the code calls: [parse] returns
    the validated value or throws. *)
Record ZodType := {
  parse : value -> Outcome value;
}.

(** [interface FetchOptions extends RequestInit { schema?: ZodType }],
    kept as the two parts [const { schema, ...fetchOptions }] splits it
    into. *)
Record FetchOptions := {
  schema : option ZodType;
  fetchOptions : RequestInit;
}.

(** zod's string-format tests, internal to the library. *)
Record ZodFormats := {
  uuid_format : string -> bool;
  email_format : string -> bool;
  iso_datetime_format : string -> bool;
}.

Record Platform := {
  fetch : string -> RequestInit -> Outcome Response;
  JSON_stringify : value -> string;
  zod_formats : ZodFormats;
}.

(* ===================================================================== *)
(** ** Async computations with a log of the network calls                 *)
(* ===================================================================== *)

Record NetCall := {
  call_url : string;
  call_init : RequestInit;
}.

Definition Async (A : Type) : Type := (list NetCall * Outcome A)%type.

Definition calls {A} (m : Async A) : list NetCall := fst m.
Definition outcome {A} (m : Async A) : Outcome A := snd m.

Definition ret {A} (a : A) : Async A := ([], Returns a).
Definition throw {A} (e : value) : Async A := ([], Throws e).
Definition lift {A} (o : Outcome A) : Async A := ([], o).

Definition bind {A B} (m : Async A) (k : A -> Async B) : Async B :=
  match m with
  | (log, Returns a) => let (log', r) := k a in (log ++ log', r)
  | (log, Throws e) => (log, Throws e)
  end.

(** [try { m } catch (error) { h error }], and [promise.catch(h)]. *)
Definition try_catch {A} (m : Async A) (h : value -> Async A) : Async A :=
  match m with
  | (log, Throws e) => let (log', r) := h e in (log ++ log', r)
  | (log, Returns a) => (log, Returns a)
  end.

Notation "x <- m ;; k" := (bind m (fun x => k))
  (at level 100, m at next level, right associativity).

(** [await fetch(url, init)]. *)
Definition await_fetch (pf : Platform) (url : string) (init : RequestInit)
  : Async Response :=
  ([ {| call_url := url; call_init := init |} ], fetch pf url init).

(* ===================================================================== *)
(** ** src/queries/fetch.ts                                               *)
(* ===================================================================== *)

(** The own properties of an array of pairs, written over [target]: the
    pair at index [i] under the key [i]. *)
Fixpoint spread_array (i : nat) (pairs : list (string * string))
  (target : gmap string value) : gmap string value :=
  match pairs with
  | [] => target
  | (name, v) :: rest =>
      spread_array (S i) rest (<[pretty i := VArr [VStr name; VStr v]]> target)
  end.

(** Object spread [{ ...target, ...source }]: every own enumerable
    property of [source] is written over [target].  [undefined] has none,
    and neither has a [Headers] instance, whose entries are no properties
    of the object; an array has its indices. *)
Definition spread (target : gmap string value)
  (source : option HeadersInit) : gmap string value :=
  match source with
  | None => target
  | Some (HeadersRecord src) =>
      map_fold (fun k v acc => <[k := v]> acc) target src
  | Some (HeadersInstance _) => target
  | Some (HeadersPairs pairs) => spread_array 0 pairs target
  end.

Definition DEFAULT_RECORD : gmap string value :=
  {[ "Content-Type" := VStr "application/json" ]}.

Definition DEFAULT_HEADERS : HeadersInit := HeadersRecord DEFAULT_RECORD.

(** [options || {}]. *)
Definition EMPTY_OPTIONS : FetchOptions :=
  {| schema := None;
     fetchOptions := {| method := None; headers := None; body := None |} |}.

(** The init object of line 113: [{ ...fetchOptions, headers: {..} }]. *)
Definition request_init (fo : RequestInit) : RequestInit :=
  {| method := method fo;
     headers := Some (HeadersRecord (spread DEFAULT_RECORD (headers fo)));
     body := body fo |}.

(** The [try] block of [fetchData] (lines 112-138). *)
Definition fetchData_try (pf : Platform) (url : string)
  (schema : option ZodType) (fo : RequestInit) : Async value :=
  response <- await_fetch pf url (request_init fo) ;;
  if negb (ok response) then
    errorData <- try_catch (lift (json response)) (fun _ => ret VNull) ;;
    throw (FetchError ("HTTP error! status: " +:+ pretty (status response))
                      (Some (status response)) errorData)
  else
    data <- lift (json response) ;;
    match schema with
    | Some s => validated <- lift (parse s data) ;; ret validated
    | None => ret data
    end.

(** The [catch] block of [fetchData] (lines 139-149).  On the last line
    [error] is neither a [FetchError] nor a [ZodError], so
    [error instanceof Error] holds exactly for a [JsError]. *)
Definition fetchData_catch (error : value) : Async value :=
  if instanceof_FetchError error then throw error
  else if instanceof_ZodError error then
    throw (FetchError "Response validation failed" None error)
  else
    throw (FetchError
             (match error with
              | JsError _ message => message
              | _ => "Unknown error"
              end) None VUndefined).

Definition fetchData (pf : Platform) (url : string)
  (options : option FetchOptions) : Async value :=
  let o := default EMPTY_OPTIONS options in
  try_catch (fetchData_try pf url (schema o) (fetchOptions o)) fetchData_catch.

(** The request a call [fetchData(url, options)] passes to [fetch]. *)
Definition issued (url : string) (options : option FetchOptions) : NetCall :=
  {| call_url := url;
     call_init := request_init (fetchOptions (default EMPTY_OPTIONS options)) |}.

(** The value the [catch] block throws for a caught [error], read off its
    three branches; [fetchData_catch_throws] below ties it to the block. *)
Definition rethrown (error : value) : value :=
  match error with
  | FetchError _ _ _ => error
  | ZodError _ => FetchError "Response validation failed" None error
  | JsError _ message => FetchError message None VUndefined
  | _ => FetchError "Unknown error" None VUndefined
  end.

(* ===================================================================== *)
(** ** The identifier pattern                                             *)
(* ===================================================================== *)

(** The regular expressions of the code are anchored at both ends and are
    sequences of character classes, each repeated a fixed number of times.
    Strings are sequences of one-byte characters here; a character outside
    ASCII is in none of the classes below. *)
Definition CharClass := ascii -> bool.
Definition Regex := list (CharClass * nat).

(** [cls{n}] at the head of [s]: what is left of [s] after it. *)
Fixpoint match_repeat (cls : CharClass) (n : nat) (s : string)
  : option string :=
  match n with
  | O => Some s
  | S n' =>
      match s with
      | String c s' => if cls c then match_repeat cls n' s' else None
      | EmptyString => None
      end
  end.

(** [/^...$/.test(s)]. *)
Fixpoint regex_test (re : Regex) (s : string) : bool :=
  match re with
  | [] => match s with EmptyString => true | String _ _ => false end
  | (cls, n) :: re' =>
      match match_repeat cls n s with
      | Some rest => regex_test re' rest
      | None => false
      end
  end.

Definition in_range (lo hi c : ascii) : bool :=
  Nat.leb (nat_of_ascii lo) (nat_of_ascii c)
  && Nat.leb (nat_of_ascii c) (nat_of_ascii hi).

(** [[0-9a-f]] under the [i] flag. *)
Definition hex_i : CharClass := fun c =>
  in_range "0" "9" c || in_range "a" "f" c || in_range "A" "F" c.

Definition hyphen : CharClass := fun c => Ascii.eqb c "-".

(** [/^[0-9a-f]{8}-[0-9a-f]{4}-[0-9a-f]{4}-[0-9a-f]{4}-[0-9a-f]{12}$/i] *)
Definition UUID_RE : Regex :=
  [ (hex_i, 8%nat); (hyphen, 1%nat); (hex_i, 4%nat); (hyphen, 1%nat);
    (hex_i, 4%nat); (hyphen, 1%nat); (hex_i, 4%nat); (hyphen, 1%nat);
    (hex_i, 12%nat) ].

Definition UUID_RE_test (id : string) : bool := regex_test UUID_RE id.

(** The canonical form in the words of the specification: five groups of
    8, 4, 4, 4 and 12 hexadecimal digits of either case, joined by
    hyphens.  Used only to state what [UUID_RE_test] decides. *)
Definition hex_digit (c : ascii) : Prop :=
  In c (list_ascii_of_string "0123456789abcdefABCDEF").

Definition hex_group (n : nat) (g : string) : Prop :=
  String.length g = n /\ Forall hex_digit (list_ascii_of_string g).

Definition canonical_uuid (id : string) : Prop :=
  exists g1 g2 g3 g4 g5 : string,
    id = g1 +:+ "-" +:+ g2 +:+ "-" +:+ g3 +:+ "-" +:+ g4 +:+ "-" +:+ g5
    /\ hex_group 8 g1 /\ hex_group 4 g2 /\ hex_group 4 g3
    /\ hex_group 4 g4 /\ hex_group 12 g5.

(** The characters of a string all lie in a class. *)
Definition all_in (cls : CharClass) (g : string) : Prop :=
  Forall (fun c => cls c = true) (list_ascii_of_string g).

(* ===================================================================== *)
(** ** The fragment of zod the schemas use                                *)
(* ===================================================================== *)

Module z.

Definition invalid (code : string) : Outcome value :=
  Throws (ZodError [ {| issue_code := code; issue_path := [] |} ]).

Definition under (step : PathItem) (i : ZodIssue) : ZodIssue :=
  {| issue_code := issue_code i; issue_path := step :: issue_path i |}.

Definition unknown : ZodType := {| parse v := Returns v |}.

Definition string_ : ZodType :=
  {| parse v := match v with VStr _ => Returns v | _ => invalid "invalid_type" end |}.

(** [.min(n)] on a string schema. *)
Definition min (n : nat) (s : ZodType) : ZodType :=
  {| parse v :=
       match parse s v with
       | Returns (VStr x) =>
           if Nat.leb n (String.length x) then Returns (VStr x)
           else invalid "too_small"
       | r => r
       end |}.

Definition format (test : string -> bool) : ZodType :=
  {| parse v :=
       match v with
       | VStr x => if test x then Returns v else invalid "invalid_format"
       | _ => invalid "invalid_type"
       end |}.

Definition uuid (pf : Platform) : ZodType := format (uuid_format (zod_formats pf)).
Definition email (pf : Platform) : ZodType := format (email_format (zod_formats pf)).
Definition iso_datetime (pf : Platform) : ZodType :=
  format (iso_datetime_format (zod_formats pf)).

Definition optional (s : ZodType) : ZodType :=
  {| parse v := match v with VUndefined => Returns VUndefined | _ => parse s v end |}.

(** [input[key]], [undefined] for a key the object does not have. *)
Fixpoint get (key : string) (fields : list (string * value)) : value :=
  match fields with
  | [] => VUndefined
  | (k, v) :: rest => if String.eqb k key then v else get key rest
  end.

(** The fields of a shape, checked one by one against [input]: the
    validated fields (only the keys of the shape) and the issues found,
    each under its key; a thrown value that is no [ZodError] ends the
    check. *)
Fixpoint parse_shape (shape : list (string * ZodType))
  (input : list (string * value))
  : Outcome (list (string * value) * list ZodIssue) :=
  match shape with
  | [] => Returns ([], [])
  | (key, s) :: rest =>
      match parse s (get key input), parse_shape rest input with
      | Returns VUndefined, Returns (out, issues) => Returns (out, issues)
      | Returns v, Returns (out, issues) => Returns ((key, v) :: out, issues)
      | Throws (ZodError found), Returns (out, issues) =>
          Returns (out, map (under (Key key)) found ++ issues)
      | Throws e, _ => Throws e
      | _, Throws e => Throws e
      end
  end.

Definition object (shape : list (string * ZodType)) : ZodType :=
  {| parse v :=
       match v with
       | VObj input =>
           match parse_shape shape input with
           | Returns (out, []) => Returns (VObj out)
           | Returns (_, issues) => Throws (ZodError issues)
           | Throws e => Throws e
           end
       | _ => invalid "invalid_type"
       end |}.

(** [z.record(z.string(), s)]: every value of the object against [s]. *)
Definition record (s : ZodType) : ZodType :=
  {| parse v :=
       match v with
       | VObj input => parse (object (map (fun kv => (fst kv, s)) input)) v
       | _ => invalid "invalid_type"
       end |}.

(** The items of an array against [s], each issue under its index. *)
Fixpoint parse_items (s : ZodType) (i : nat) (items : list value)
  : Outcome (list value * list ZodIssue) :=
  match items with
  | [] => Returns ([], [])
  | v :: rest =>
      match parse s v, parse_items s (S i) rest with
      | Returns v', Returns (out, issues) => Returns (v' :: out, issues)
      | Throws (ZodError found), Returns (out, issues) =>
          Returns (out, map (under (Index i)) found ++ issues)
      | Throws e, _ => Throws e
      | _, Throws e => Throws e
      end
  end.

Definition array (s : ZodType) : ZodType :=
  {| parse v :=
       match v with
       | VArr items =>
           match parse_items s 0 items with
           | Returns (out, []) => Returns (VArr out)
           | Returns (_, issues) => Throws (ZodError issues)
           | Throws e => Throws e
           end
       | _ => invalid "invalid_type"
       end |}.

End z.

(* ===================================================================== *)
(** ** src/schemas/api.ts                                                 *)
(* ===================================================================== *)

Definition userSchema (pf : Platform) : ZodType :=
  z.object
    [ ("id", z.uuid pf);
      ("name", z.min 1 z.string_);
      ("email", z.email pf);
      ("createdAt", z.iso_datetime pf) ].

Definition postSchema (pf : Platform) : ZodType :=
  z.object
    [ ("id", z.uuid pf);
      ("title", z.min 1 z.string_);
      ("content", z.string_);
      ("authorId", z.uuid pf);
      ("createdAt", z.iso_datetime pf);
      ("updatedAt", z.iso_datetime pf) ].

Definition apiErrorSchema : ZodType :=
  z.object
    [ ("message", z.string_);
      ("code", z.optional z.string_);
      ("details", z.optional (z.record z.unknown)) ].

(* ===================================================================== *)
(** ** src/queries/fetch.ts, the example queries                          *)
(* ===================================================================== *)

Definition NO_INIT : RequestInit :=
  {| method := None; headers := None; body := None |}.

(** In the queries below [await import('../schemas/api')] is the binding
    of the schema it yields: loading the module calls no [fetch]. *)
Definition fetchUserById (pf : Platform) (userId : string) : Async value :=
  let userSchema := userSchema pf in
  if negb (UUID_RE_test userId) then
    throw (FetchError "Invalid user ID format" None VUndefined)
  else
    fetchData pf ("/api/users/" +:+ userId)
      (Some {| schema := Some userSchema; fetchOptions := NO_INIT |}).

Definition fetchPosts (pf : Platform) : Async value :=
  let postSchema := postSchema pf in
  fetchData pf "/api/posts"
    (Some {| schema := Some (z.array postSchema); fetchOptions := NO_INIT |}).

(* ===================================================================== *)
(** ** src/queries/mutate.ts                                              *)
(* ===================================================================== *)

Definition createResource (pf : Platform) (url : string) (data : value)
  : Async value :=
  fetchData pf url
    (Some {| schema := None;
             fetchOptions := {| method := Some "POST"; headers := None;
                                body := Some (JSON_stringify pf data) |} |}).

Definition updateResource (pf : Platform) (url : string) (data : value)
  : Async value :=
  fetchData pf url
    (Some {| schema := None;
             fetchOptions := {| method := Some "PUT"; headers := None;
                                body := Some (JSON_stringify pf data) |} |}).

Definition patchResource (pf : Platform) (url : string) (data : value)
  : Async value :=
  fetchData pf url
    (Some {| schema := None;
             fetchOptions := {| method := Some "PATCH"; headers := None;
                                body := Some (JSON_stringify pf data) |} |}).

(** [Promise<void>]: the fetched value is dropped. *)
Definition deleteResource (pf : Platform) (url : string) : Async unit :=
  _ <- fetchData pf url
         (Some {| schema := None;
                  fetchOptions := {| method := Some "DELETE"; headers := None;
                                     body := None |} |}) ;;
  ret tt.

(** [data: { title: string; content: string }]: the caller's object, by
    its own properties in their order.  [createPost] reads none of them
    and serialises the object as it is. *)
Definition PostInput : Type := list (string * value).

Definition PostInput_value (data : PostInput) : value := VObj data.

Definition createPost (pf : Platform) (data : PostInput) : Async value :=
  let postSchema := postSchema pf in
  fetchData pf "/api/posts"
    (Some {| schema := Some postSchema;
             fetchOptions := {| method := Some "POST"; headers := None;
                                body := Some (JSON_stringify pf (PostInput_value data)) |} |}).

(** [data: { name: string; email: string }]: the caller's object, by its
    own properties in their order; it is serialised as it is.  [data.name]
    and [data.email] read a property, [undefined] when the caller left it
    out. *)
Definition UserInput : Type := list (string * value).

Definition name (data : UserInput) : value := z.get "name" data.
Definition email (data : UserInput) : value := z.get "email" data.

Definition UserInput_value (data : UserInput) : value := VObj data.

Definition updateUser (pf : Platform) (userId : string) (data : UserInput)
  : Async value :=
  let userSchema := userSchema pf in
  if negb (UUID_RE_test userId) then
    throw (JsError "Error" "Invalid user ID format")
  else if negb (truthy (name data)) || negb (truthy (email data)) then
    throw (JsError "Error" "Name and email are required")
  else
    fetchData pf ("/api/users/" +:+ userId)
      (Some {| schema := Some userSchema;
               fetchOptions := {| method := Some "PUT"; headers := None;
                                  body := Some (JSON_stringify pf (UserInput_value data)) |} |}).

Definition deletePost (pf : Platform) (postId : string) : Async unit :=
  if negb (UUID_RE_test postId) then
    throw (JsError "Error" "Invalid post ID format")
  else
    deleteResource pf ("/api/posts/" +:+ postId).

(* ===================================================================== *)
(** ** Sample servers and payloads                                        *)
(* ===================================================================== *)

(** The scenarios of the specification, as platforms whose [fetch]
    settles the same way for every request. *)
Definition SAMPLE_FORMATS : ZodFormats :=
  {| uuid_format := UUID_RE_test;
     email_format := fun s => existsb (Ascii.eqb "@") (list_ascii_of_string s);
     iso_datetime_format := fun s => Nat.eqb (String.length s) 24 |}.

Definition server (settles : Outcome Response) : Platform :=
  {| fetch := fun _ _ => settles;
     JSON_stringify := fun _ => "{}";
     zod_formats := SAMPLE_FORMATS |}.

Definition JANE_ID : string := "550e8400-e29b-41d4-a716-446655440000".

Definition JANE : value :=
  VObj [ ("id", VStr JANE_ID); ("name", VStr "Jane");
         ("email", VStr "jane@x.com");
         ("createdAt", VStr "2024-01-01T00:00:00.000Z") ].

Definition JANE_WITHOUT_EMAIL : value :=
  VObj [ ("id", VStr JANE_ID); ("name", VStr "Jane");
         ("createdAt", VStr "2024-01-01T00:00:00.000Z") ].

Definition NOT_FOUND_BODY : value := VObj [ ("message", VStr "not found") ].

Definition OK_200 (parsed : value) : Response :=
  {| status := 200; json := Returns parsed |}.

Definition NOT_FOUND_404 : Response :=
  {| status := 404; json := Returns NOT_FOUND_BODY |}.

(** A gateway's HTML error page: [json()] rejects. *)
Definition BAD_GATEWAY_502 : Response :=
  {| status := 502;
     json := Throws (JsError "SyntaxError" "Unexpected token '<'") |}.

(** 204 No Content: success, and nothing to parse. *)
Definition NO_CONTENT_204 : Response :=
  {| status := 204;
     json := Throws (JsError "SyntaxError" "Unexpected end of JSON input") |}.

Definition WITH_SCHEMA (s : ZodType) : option FetchOptions :=
  Some {| schema := Some s; fetchOptions := NO_INIT |}.

Definition CALLER_HEADERS : gmap string value :=
  <["Content-Type" := VStr "text/plain"]>
    {[ "Authorization" := VStr "Bearer token" ]}.

(** [new Headers({ Authorization: 'Bearer token' })] *)
Definition CALLER_HEADERS_INSTANCE : HeadersInit :=
  HeadersInstance [ ("authorization", "Bearer token") ].

Definition WITH_HEADERS (h : HeadersInit) : option FetchOptions :=
  Some {| schema := None;
          fetchOptions := {| method := None; headers := Some h; body := None |} |}.

(* ===================================================================== *)
(** ** Validated records, requests and case mapping                       *)
(* ===================================================================== *)

(** [type User = z.infer<typeof userSchema>], with the formats the schema
    checks: the four fields, in the order of the shape. *)
Definition is_User (pf : Platform) (v : value) : Prop :=
  exists id name email createdAt : string,
    v = VObj [ ("id", VStr id); ("name", VStr name); ("email", VStr email);
               ("createdAt", VStr createdAt) ]
    /\ uuid_format (zod_formats pf) id = true
    /\ name <> ""
    /\ email_format (zod_formats pf) email = true
    /\ iso_datetime_format (zod_formats pf) createdAt = true.

(** [type Post = z.infer<typeof postSchema>]. *)
Definition is_Post (pf : Platform) (v : value) : Prop :=
  exists id title content authorId createdAt updatedAt : string,
    v = VObj [ ("id", VStr id); ("title", VStr title);
               ("content", VStr content); ("authorId", VStr authorId);
               ("createdAt", VStr createdAt); ("updatedAt", VStr updatedAt) ]
    /\ uuid_format (zod_formats pf) id = true
    /\ title <> ""
    /\ uuid_format (zod_formats pf) authorId = true
    /\ iso_datetime_format (zod_formats pf) createdAt = true
    /\ iso_datetime_format (zod_formats pf) updatedAt = true.

(** The fields of [input] a shape names, in the order of the shape. *)
Definition pick (shape : list (string * ZodType))
  (input : list (string * value)) : list (string * value) :=
  map (fun ks => (fst ks, z.get (fst ks) input)) shape.

(** A schema of string fields: it returns the string it was given, or
    throws a [ZodError] with one issue. *)
Definition string_schema (s : ZodType) : Prop :=
  forall v,
    (exists x, v = VStr x /\ parse s v = Returns v)
    \/ (exists i, parse s v = Throws (ZodError [i])).

(** A schema whose failures are [ZodError]s with at least one issue. *)
Definition zod_schema (s : ZodType) : Prop :=
  forall v e, parse s v = Throws e ->
    exists i issues, e = ZodError (i :: issues).

(** ASCII case mapping, as [toUpperCase] and [toLowerCase] act on the
    characters the identifier pattern can match. *)
Definition upper (c : ascii) : ascii :=
  if in_range "a" "z" c then ascii_of_nat (nat_of_ascii c - 32) else c.

Definition lower (c : ascii) : ascii :=
  if in_range "A" "Z" c then ascii_of_nat (nat_of_ascii c + 32) else c.

Fixpoint map_chars (f : ascii -> ascii) (s : string) : string :=
  match s with
  | EmptyString => EmptyString
  | String c s' => String (f c) (map_chars f s')
  end.

Definition toUpperCase (s : string) : string := map_chars upper s.
Definition toLowerCase (s : string) : string := map_chars lower s.

(** The characters a pattern consumes. *)
Definition pattern_length (re : Regex) : nat :=
  fold_right (fun cn total => (snd cn + total)%nat) 0%nat re.

(** The request of the generic mutations: [method], the serialised [data]
    as body, and the default header. *)
Definition mutation_call (pf : Platform) (verb url : string) (data : value)
  : NetCall :=
  {| call_url := url;
     call_init := {| method := Some verb; headers := Some DEFAULT_HEADERS;
                     body := Some (JSON_stringify pf data) |} |}.

Definition DELETE_CALL (url : string) : NetCall :=
  {| call_url := url;
     call_init := {| method := Some "DELETE"; headers := Some DEFAULT_HEADERS;
                     body := None |} |}.

Definition GET_CALL (url : string) : NetCall :=
  {| call_url := url;
     call_init := {| method := None; headers := Some DEFAULT_HEADERS;
                     body := None |} |}.

(** The platform throws no [FetchError] of its own making: neither
    [fetch], nor [json()], nor a schema. *)
Definition foreign_errors (pf : Platform) (url : string)
  (options : option FetchOptions) : Prop :=
  (forall e, fetch pf url (call_init (issued url options)) = Throws e ->
     instanceof_FetchError e = false)
  /\ (forall response e,
        fetch pf url (call_init (issued url options)) = Returns response ->
        json response = Throws e -> instanceof_FetchError e = false)
  /\ (forall response data s e,
        fetch pf url (call_init (issued url options)) = Returns response ->
        json response = Returns data ->
        schema (default EMPTY_OPTIONS options) = Some s ->
        parse s data = Throws e -> instanceof_FetchError e = false).

Definition SAMPLE_POST : value :=
  VObj [ ("id", VStr JANE_ID); ("title", VStr "Hello");
         ("content", VStr ""); ("authorId", VStr JANE_ID);
         ("createdAt", VStr "2024-01-01T00:00:00.000Z");
         ("updatedAt", VStr "2024-01-02T00:00:00.000Z") ].

(* ===================================================================== *)
(** ** Helper lemmas                                                      *)
(* ===================================================================== *)

Section Spread.

(** A key of a spread plain object reads the source first, then the
    target. *)
Lemma spread_lookup (target src : gmap string value) (key : string) :
  spread target (Some (HeadersRecord src)) !! key =
    match src !! key with
    | Some v => Some v
    | None => target !! key
    end.
Proof.
  cbn [spread].
  apply (map_fold_weak_ind
           (fun r m => r !! key =
              match m !! key with Some v => Some v | None => target !! key end)).
  - rewrite lookup_empty. reflexivity.
  - intros i x m r Hfresh IH.
    destruct (decide (i = key)) as [->|Hne].
    + rewrite !lookup_insert_eq. reflexivity.
    + rewrite !lookup_insert_ne by assumption. exact IH.
Qed.

Lemma spread_none (target : gmap string value) : spread target None = target.
Proof. reflexivity. Qed.

End Spread.

Section Outcomes.

Variable pf : Platform.

Lemma ok_spec (response : Response) :
  ok response = true <-> 200 <= status response <= 299.
Proof.
  unfold ok. rewrite andb_true_iff, !Z.leb_le. tauto.
Qed.

Lemma not_ok_spec (response : Response) :
  ok response = false <-> ~ 200 <= status response <= 299.
Proof.
  rewrite <- ok_spec. destruct (ok response); split; congruence.
Qed.

Lemma fetchData_catch_throws (error : value) :
  fetchData_catch error = ([], Throws (rethrown error)).
Proof. destruct error; reflexivity. Qed.

Lemma rethrown_shape (error : value) :
  exists message st data, rethrown error = FetchError message st data.
Proof. destruct error; simpl; eauto. Qed.

Lemma rethrown_typed (error : value) :
  instanceof_FetchError (rethrown error) = true.
Proof. destruct error; reflexivity. Qed.

(** [fetchData] case by case: one request is issued, and the promise
    settles by the response, the parse of its body and the schema. *)
Lemma fetchData_settles (url : string) (options : option FetchOptions) :
  fetchData pf url options =
    ([issued url options],
     match fetch pf url (call_init (issued url options)) with
     | Throws e => Throws (rethrown e)
     | Returns response =>
         if ok response then
           match json response with
           | Throws e => Throws (rethrown e)
           | Returns data =>
               match schema (default EMPTY_OPTIONS options) with
               | None => Returns data
               | Some s =>
                   match parse s data with
                   | Returns validated => Returns validated
                   | Throws e => Throws (rethrown e)
                   end
               end
           end
         else
           Throws (FetchError
                     ("HTTP error! status: " +:+ pretty (status response))
                     (Some (status response))
                     (match json response with
                      | Returns parsed => parsed
                      | Throws _ => VNull
                      end))
     end).
Proof.
  unfold fetchData, fetchData_try, await_fetch, issued; simpl.
  destruct (fetch pf url _) as [response|e]; simpl.
  - destruct (ok response); simpl.
    + destruct (json response) as [data|e]; simpl.
      * destruct (schema (default EMPTY_OPTIONS options)) as [s|]; simpl.
        -- destruct (parse s data) as [validated|e]; simpl; [reflexivity|].
           rewrite fetchData_catch_throws. reflexivity.
        -- reflexivity.
      * rewrite fetchData_catch_throws. reflexivity.
    + destruct (json response) as [parsed|e]; reflexivity.
  - rewrite fetchData_catch_throws. reflexivity.
Qed.

End Outcomes.

Section Patterns.

Lemma match_repeat_app (cls : CharClass) (g rest : string) :
  all_in cls g ->
  match_repeat cls (String.length g) (g +:+ rest) = Some rest.
Proof.
  unfold all_in. induction g as [|c g IH]; simpl; intros Hall.
  - reflexivity.
  - inversion Hall as [|? ? Hc Hg]; subst. rewrite Hc. apply IH, Hg.
Qed.

Lemma match_repeat_split (cls : CharClass) (n : nat) :
  forall s rest, match_repeat cls n s = Some rest ->
    exists g, s = g +:+ rest /\ String.length g = n /\ all_in cls g.
Proof.
  induction n as [|n IH]; simpl; intros s rest H.
  - exists "". inversion H; subst. repeat split. constructor.
  - destruct s as [|c s]; [discriminate|].
    destruct (cls c) eqn:Hc; [|discriminate].
    destruct (IH _ _ H) as (g & -> & Hlen & Hall).
    exists (String c g). simpl. repeat split; [congruence|].
    constructor; assumption.
Qed.

Lemma hex_i_digit (c : ascii) : hex_i c = true <-> hex_digit c.
Proof.
  unfold hex_digit.
  assert (Hb : hex_i c =
            existsb (Ascii.eqb c) (list_ascii_of_string "0123456789abcdefABCDEF")).
  { destruct c as [[] [] [] [] [] [] [] []]; reflexivity. }
  rewrite Hb, existsb_exists. split.
  - intros (x & Hin & Heq). apply Ascii.eqb_eq in Heq. subst. exact Hin.
  - intros Hin. exists c. split; [exact Hin|apply Ascii.eqb_refl].
Qed.

Lemma all_in_hex (n : nat) (g : string) :
  String.length g = n /\ all_in hex_i g <-> hex_group n g.
Proof.
  unfold hex_group, all_in. rewrite !Forall_forall.
  split; intros [Hlen Hall]; (split; [exact Hlen|]);
    intros c Hc; apply hex_i_digit, Hall, Hc.
Qed.

Lemma all_in_hyphen (g : string) :
  String.length g = 1%nat -> all_in hyphen g -> g = "-".
Proof.
  destruct g as [|c [|d g]]; simpl; try discriminate. intros _ Hall.
  inversion Hall as [|? ? Hc _]; subst.
  apply Ascii.eqb_eq in Hc. congruence.
Qed.

Lemma regex_test_nil (s : string) : regex_test [] s = true <-> s = "".
Proof. destruct s; simpl; split; intros H; try discriminate H; reflexivity. Qed.

Lemma regex_test_cons (cls : CharClass) (n : nat) (re : Regex) (s : string) :
  regex_test ((cls, n) :: re) s = true <->
  exists g rest, s = g +:+ rest /\ String.length g = n /\ all_in cls g
                 /\ regex_test re rest = true.
Proof.
  cbn [regex_test]. split.
  - destruct (match_repeat cls n s) as [rest|] eqn:E; [|discriminate].
    intros H. apply match_repeat_split in E.
    destruct E as (g & Hs & Hlen & Hall). exists g, rest. auto.
  - intros (g & rest & -> & <- & Hall & H).
    rewrite match_repeat_app by exact Hall. exact H.
Qed.

Lemma append_empty_r (s : string) : s +:+ "" = s.
Proof.
  induction s as [|c s IH]; [reflexivity|].
  change (String c (s +:+ "") = String c s). rewrite IH. reflexivity.
Qed.

(** The expression of the code decides the canonical form. *)
Lemma UUID_RE_test_canonical (id : string) :
  UUID_RE_test id = true <-> canonical_uuid id.
Proof.
  unfold UUID_RE_test, canonical_uuid, UUID_RE. split.
  - intros H.
    apply regex_test_cons in H. destruct H as (g1 & r1 & -> & L1 & A1 & H).
    apply regex_test_cons in H. destruct H as (h1 & r2 & -> & M1 & B1 & H).
    apply regex_test_cons in H. destruct H as (g2 & r3 & -> & L2 & A2 & H).
    apply regex_test_cons in H. destruct H as (h2 & r4 & -> & M2 & B2 & H).
    apply regex_test_cons in H. destruct H as (g3 & r5 & -> & L3 & A3 & H).
    apply regex_test_cons in H. destruct H as (h3 & r6 & -> & M3 & B3 & H).
    apply regex_test_cons in H. destruct H as (g4 & r7 & -> & L4 & A4 & H).
    apply regex_test_cons in H. destruct H as (h4 & r8 & -> & M4 & B4 & H).
    apply regex_test_cons in H. destruct H as (g5 & r9 & -> & L5 & A5 & H).
    apply regex_test_nil in H. subst r9.
    rewrite (all_in_hyphen h1 M1 B1), (all_in_hyphen h2 M2 B2),
      (all_in_hyphen h3 M3 B3), (all_in_hyphen h4 M4 B4), append_empty_r.
    exists g1, g2, g3, g4, g5. rewrite <- !all_in_hex. tauto.
  - intros (g1 & g2 & g3 & g4 & g5 & -> & G1 & G2 & G3 & G4 & G5).
    apply all_in_hex in G1, G2, G3, G4, G5.
    assert (Hy : String.length "-" = 1%nat /\ all_in hyphen "-").
    { split; [reflexivity|]. repeat constructor. }
    repeat (apply regex_test_cons; eexists; eexists;
            split; [reflexivity|]; split; [tauto|]; split; [tauto|]).
    rewrite <- (append_empty_r g5) at 1.
    apply regex_test_cons. exists g5, "".
    repeat split; try tauto.
Qed.
End Patterns.

(** Rewrites a call of [fetchData] into the request it issued and the way
    its promise settled. *)
Ltac settle :=
  rewrite fetchData_settles; unfold outcome, calls; cbn [fst snd].

Section Settling.
Variable pf : Platform.

Lemma fetchData_throws_typed (url : string) (options : option FetchOptions)
  (e : value) :
  outcome (fetchData pf url options) = Throws e ->
  instanceof_FetchError e = true.
Proof.
  settle.
  destruct (fetch pf url _) as [response|e0].
  - destruct (ok response).
    + destruct (json response) as [data|e0].
      * destruct (schema _) as [s|]; [destruct (parse s data) as [w|e0]|];
          intros H; inversion H; subst; apply rethrown_typed.
      * intros H; inversion H; subst; apply rethrown_typed.
    + intros H; inversion H; subst; reflexivity.
  - intros H; inversion H; subst; apply rethrown_typed.
Qed.

Lemma fetchData_try_throws (url : string) (options : option FetchOptions)
  (e : value) :
  outcome (fetchData_try pf url (schema (default EMPTY_OPTIONS options))
             (fetchOptions (default EMPTY_OPTIONS options))) = Throws e ->
  outcome (fetchData pf url options) = Throws (rethrown e).
Proof.
  unfold fetchData, try_catch, outcome.
  destruct (fetchData_try _ _ _ _) as [log [a|e0]]; cbn [snd]; intros H.
  - discriminate H.
  - inversion H; subst. rewrite fetchData_catch_throws. reflexivity.
Qed.

Lemma deleteResource_settles (url : string) :
  deleteResource pf url =
    (calls (fetchData pf url
              (Some {| schema := None;
                       fetchOptions := {| method := Some "DELETE";
                                          headers := None; body := None |} |})),
     match outcome (fetchData pf url
              (Some {| schema := None;
                       fetchOptions := {| method := Some "DELETE";
                                          headers := None; body := None |} |})) with
     | Returns _ => Returns tt
     | Throws e => Throws e
     end).
Proof.
  unfold deleteResource, bind, ret, calls, outcome.
  destruct (fetchData pf url _) as [log [v|e]]; cbn [fst snd].
  - rewrite app_nil_r. reflexivity.
  - reflexivity.
Qed.

Lemma deleteResource_throws_typed (url : string) (e : value) :
  outcome (deleteResource pf url) = Throws e ->
  instanceof_FetchError e = true.
Proof.
  rewrite deleteResource_settles. unfold outcome at 1. cbn [snd].
  destruct (outcome (fetchData pf url _)) as [v|e0] eqn:E; [discriminate|].
  intros H; inversion H; subst. apply (fetchData_throws_typed _ _ _ E).
Qed.

Lemma UUID_RE_test_false (id : string) :
  UUID_RE_test id = false <-> ~ canonical_uuid id.
Proof.
  rewrite <- UUID_RE_test_canonical.
  destruct (UUID_RE_test id); split; congruence.
Qed.

End Settling.

(* ===================================================================== *)
(** ** The properties of the validated fetch                              *)
(* ===================================================================== *)

(** C1, as amended.  [fetchData] returns a value exactly when the request
    completed with a 2xx status, the body parsed as JSON, and either no
    schema was supplied (the value is the parsed body) or the schema
    accepted the parsed body (the value is what [parse] returned).  Every
    call ends either with such a value or with one [FetchError]; for a
    2xx response whose body does not parse, that [FetchError] carries the
    message of the parse error, and neither status nor data. *)
Theorem fetchData_returns_iff (pf : Platform) (url : string)
  (options : option FetchOptions) :
  (forall v : value,
     outcome (fetchData pf url options) = Returns v <->
     exists response data,
       fetch pf url (call_init (issued url options)) = Returns response
       /\ 200 <= status response <= 299
       /\ json response = Returns data
       /\ match schema (default EMPTY_OPTIONS options) with
          | None => v = data
          | Some s => parse s data = Returns v
          end)
  /\ ((exists v, outcome (fetchData pf url options) = Returns v)
      \/ (exists message st data,
            outcome (fetchData pf url options)
            = Throws (FetchError message st data)))
  /\ (forall response name message,
        fetch pf url (call_init (issued url options)) = Returns response ->
        200 <= status response <= 299 ->
        json response = Throws (JsError name message) ->
        outcome (fetchData pf url options)
        = Throws (FetchError message None VUndefined)).
Proof.
  settle.
  split; [|split].
  - intros v. split.
    + destruct (fetch pf url _) as [response|e]; [|discriminate].
      destruct (ok response) eqn:Hok; [|discriminate].
      destruct (json response) as [data|e] eqn:Hjson; [|discriminate].
      intros H. exists response, data.
      split; [reflexivity|]. split; [apply ok_spec, Hok|].
      split; [exact Hjson|].
      destruct (schema _) as [s|].
      * destruct (parse s data); congruence.
      * congruence.
    + intros (response & data & -> & Hok & Hjson & Hs).
      apply ok_spec in Hok. rewrite Hok, Hjson.
      destruct (schema _) as [s|]; [rewrite Hs|]; congruence.
  - destruct (fetch pf url _) as [response|e].
    + destruct (ok response); [|eauto].
      destruct (json response) as [data|e].
      * destruct (schema _) as [s|]; [destruct (parse s data) as [w|e]|]; eauto.
        right. destruct (rethrown_shape e) as (m & st & d & ->). eauto.
      * right. destruct (rethrown_shape e) as (m & st & d & ->). eauto.
    + right. destruct (rethrown_shape e) as (m & st & d & ->). eauto.
  - intros response name message -> Hok ->. apply ok_spec in Hok.
    rewrite Hok. reflexivity.
Qed.

(** C1 as stated fails: a 204 response has a success status and no schema
    was supplied, yet there is no body to parse and [fetchData] throws. *)
Lemma fetchData_no_content_throws :
  fetch (server (Returns NO_CONTENT_204)) "/api/posts/1"
    (call_init (issued "/api/posts/1" None)) = Returns NO_CONTENT_204
  /\ 200 <= status NO_CONTENT_204 <= 299
  /\ schema (default EMPTY_OPTIONS None) = None
  /\ outcome (fetchData (server (Returns NO_CONTENT_204)) "/api/posts/1" None)
     = Throws (FetchError "Unexpected end of JSON input" None VUndefined).
Proof.
  split; [reflexivity|]. split; [simpl; lia|]. split; reflexivity.
Qed.

(** C2.  A response whose status is outside 200-299 makes [fetchData]
    throw a [FetchError] whose [status] is that code, whose message is
    ["HTTP error! status: "] followed by the code in decimal, and whose
    [data] is the parsed body whenever the body parses. *)
Theorem fetchData_http_failure (pf : Platform) (url : string)
  (options : option FetchOptions) (response : Response) :
  fetch pf url (call_init (issued url options)) = Returns response ->
  ~ 200 <= status response <= 299 ->
  exists data,
    outcome (fetchData pf url options)
    = Throws (FetchError ("HTTP error! status: " +:+ pretty (status response))
                         (Some (status response)) data)
    /\ forall parsed, json response = Returns parsed -> data = parsed.
Proof.
  intros Hfetch Hstatus. apply not_ok_spec in Hstatus.
  settle.
  rewrite Hfetch, Hstatus.
  eexists. split; [reflexivity|].
  intros parsed ->. reflexivity.
Qed.

(** Scenario 2 of the specification: a 404 with body
    [{"message":"not found"}]. *)
Lemma fetchData_http_failure_404 :
  exists data,
    outcome (fetchData (server (Returns NOT_FOUND_404))
               ("/api/users/" +:+ JANE_ID) None)
    = Throws (FetchError "HTTP error! status: 404" (Some 404) data)
    /\ forall parsed, json NOT_FOUND_404 = Returns parsed -> data = parsed.
Proof.
  apply (fetchData_http_failure (server (Returns NOT_FOUND_404))
           ("/api/users/" +:+ JANE_ID) None NOT_FOUND_404).
  - reflexivity.
  - simpl. lia.
Defined.

(** C3, as amended.  When the body of a non-2xx response does not parse,
    the rejection of [json()] goes no further: one request was issued, and
    the promise is rejected with the HTTP [FetchError], whose [data] is
    [null], the value line 122 puts in place of the diagnostic data. *)
Theorem fetchData_http_failure_unparseable (pf : Platform) (url : string)
  (options : option FetchOptions) (response : Response) (e : value) :
  fetch pf url (call_init (issued url options)) = Returns response ->
  ~ 200 <= status response <= 299 ->
  json response = Throws e ->
  fetchData pf url options
  = ([issued url options],
     Throws (FetchError ("HTTP error! status: " +:+ pretty (status response))
                        (Some (status response)) VNull)).
Proof.
  intros Hfetch Hstatus Hjson. apply not_ok_spec in Hstatus.
  rewrite fetchData_settles, Hfetch, Hstatus, Hjson. reflexivity.
Qed.

(** A gateway's HTML error page. *)
Lemma fetchData_http_failure_502 :
  fetchData (server (Returns BAD_GATEWAY_502)) "/api/posts" None
  = ([issued "/api/posts" None],
     Throws (FetchError "HTTP error! status: 502" (Some 502) VNull)).
Proof.
  apply (fetchData_http_failure_unparseable (server (Returns BAD_GATEWAY_502))
           "/api/posts" None BAD_GATEWAY_502
           (JsError "SyntaxError" "Unexpected token '<'")).
  - reflexivity.
  - simpl. lia.
  - reflexivity.
Defined.

(** C3 as stated fails: after a body that does not parse the [data] field
    is not absent; it holds [null], as it does for a body that parses to
    the JSON value [null]. *)
Lemma fetchData_unparseable_data_is_null :
  outcome (fetchData (server (Returns BAD_GATEWAY_502)) "/api/posts" None)
  = Throws (FetchError "HTTP error! status: 502" (Some 502) VNull)
  /\ VNull <> VUndefined
  /\ outcome (fetchData (server (Returns {| status := 502;
                                            json := Returns VNull |}))
                "/api/posts" None)
     = Throws (FetchError "HTTP error! status: 502" (Some 502) VNull).
Proof.
  split; [reflexivity|]. split; [discriminate | reflexivity].
Qed.

(** C4.  For a 2xx response with a parsed body and a schema supplied: if
    [parse] returns, [fetchData] returns that validated value; if [parse]
    throws a [ZodError], [fetchData] throws the one [FetchError] with
    message ["Response validation failed"], no [status], and the
    [ZodError] as [data]. *)
Theorem fetchData_validates (pf : Platform) (url : string)
  (options : option FetchOptions) (s : ZodType) (response : Response)
  (data : value) :
  schema (default EMPTY_OPTIONS options) = Some s ->
  fetch pf url (call_init (issued url options)) = Returns response ->
  200 <= status response <= 299 ->
  json response = Returns data ->
  (forall validated, parse s data = Returns validated ->
     outcome (fetchData pf url options) = Returns validated)
  /\ (forall issues, parse s data = Throws (ZodError issues) ->
        outcome (fetchData pf url options)
        = Throws (FetchError "Response validation failed" None
                             (ZodError issues))).
Proof.
  intros Hschema Hfetch Hstatus Hjson. apply ok_spec in Hstatus.
  settle.
  rewrite Hfetch, Hstatus, Hjson, Hschema.
  split; intros r ->; reflexivity.
Qed.

(** Scenarios 1 and 3 of the specification with [userSchema]: a matching
    user record comes back unchanged, one without [email] is refused. *)
Lemma fetchData_validates_user :
  outcome (fetchData (server (Returns (OK_200 JANE)))
             ("/api/users/" +:+ JANE_ID)
             (WITH_SCHEMA (userSchema (server (Returns (OK_200 JANE))))))
  = Returns JANE
  /\ outcome (fetchData (server (Returns (OK_200 JANE_WITHOUT_EMAIL)))
                "/api/users"
                (WITH_SCHEMA (userSchema (server (Returns (OK_200 JANE))))))
     = Throws (FetchError "Response validation failed" None
                 (ZodError [ {| issue_code := "invalid_type";
                                issue_path := [Key "email"] |} ])).
Proof.
  split.
  - apply (fetchData_validates (server (Returns (OK_200 JANE)))
             ("/api/users/" +:+ JANE_ID)
             (WITH_SCHEMA (userSchema (server (Returns (OK_200 JANE)))))
             (userSchema (server (Returns (OK_200 JANE))))
             (OK_200 JANE) JANE);
      [reflexivity | reflexivity | simpl; lia | reflexivity | reflexivity].
  - apply (fetchData_validates (server (Returns (OK_200 JANE_WITHOUT_EMAIL)))
             "/api/users"
             (WITH_SCHEMA (userSchema (server (Returns (OK_200 JANE)))))
             (userSchema (server (Returns (OK_200 JANE))))
             (OK_200 JANE_WITHOUT_EMAIL) JANE_WITHOUT_EMAIL);
      [reflexivity | reflexivity | simpl; lia | reflexivity | reflexivity].
Defined.

(** C5.  For a 2xx response with no schema supplied whose body parses,
    [fetchData] returns the parsed body itself. *)
Theorem fetchData_identity (pf : Platform) (url : string)
  (options : option FetchOptions) (response : Response) (data : value) :
  schema (default EMPTY_OPTIONS options) = None ->
  fetch pf url (call_init (issued url options)) = Returns response ->
  200 <= status response <= 299 ->
  json response = Returns data ->
  outcome (fetchData pf url options) = Returns data.
Proof.
  intros Hschema Hfetch Hstatus Hjson. apply ok_spec in Hstatus.
  settle.
  rewrite Hfetch, Hstatus, Hjson, Hschema. reflexivity.
Qed.

(** A user record fetched without a schema. *)
Lemma fetchData_identity_jane :
  outcome (fetchData (server (Returns (OK_200 JANE))) "/api/users/me" None)
  = Returns JANE.
Proof.
  apply (fetchData_identity (server (Returns (OK_200 JANE))) "/api/users/me"
           None (OK_200 JANE) JANE).
  - reflexivity.
  - reflexivity.
  - simpl. lia.
  - reflexivity.
Defined.

(** C6, as amended.  Every rejection of [fetchData], [createPost],
    [fetchUserById] and [deleteResource] is a [FetchError].  A value
    thrown to the [catch] block of [fetchData] always rejects its promise;
    the one failure that goes no further is a rejection of [json()] on a
    non-2xx response, which line 122 replaces by [null] data in the HTTP
    [FetchError].  [updateUser] and [deletePost] reject with a
    [FetchError] once their checks have passed; a failed check is thrown
    as a plain [Error] with the message of the check, and no request is
    issued. *)
Theorem failures_are_typed (pf : Platform) :
  (forall url options e,
     outcome (fetchData pf url options) = Throws e ->
     instanceof_FetchError e = true)
  /\ (forall url options e,
        outcome (fetchData_try pf url (schema (default EMPTY_OPTIONS options))
                   (fetchOptions (default EMPTY_OPTIONS options))) = Throws e ->
        exists e', outcome (fetchData pf url options) = Throws e')
  /\ (forall url options response e,
        fetch pf url (call_init (issued url options)) = Returns response ->
        ~ 200 <= status response <= 299 ->
        json response = Throws e ->
        outcome (fetchData pf url options)
        = Throws (FetchError
                    ("HTTP error! status: " +:+ pretty (status response))
                    (Some (status response)) VNull))
  /\ (forall data e,
        outcome (createPost pf data) = Throws e ->
        instanceof_FetchError e = true)
  /\ (forall userId e,
        outcome (fetchUserById pf userId) = Throws e ->
        instanceof_FetchError e = true)
  /\ (forall url e,
        outcome (deleteResource pf url) = Throws e ->
        instanceof_FetchError e = true)
  /\ (forall userId data,
        if UUID_RE_test userId then
          if truthy (name data) && truthy (email data)
          then forall e, outcome (updateUser pf userId data) = Throws e ->
                         instanceof_FetchError e = true
          else updateUser pf userId data
               = ([], Throws (JsError "Error" "Name and email are required"))
        else updateUser pf userId data
             = ([], Throws (JsError "Error" "Invalid user ID format")))
  /\ (forall postId,
        if UUID_RE_test postId
        then forall e, outcome (deletePost pf postId) = Throws e ->
                       instanceof_FetchError e = true
        else deletePost pf postId
             = ([], Throws (JsError "Error" "Invalid post ID format"))).
Proof.
  split; [apply fetchData_throws_typed|].
  split; [intros url options e H; eexists; apply fetchData_try_throws, H|].
  split.
  { intros url options response e Hfetch Hstatus Hjson.
    apply not_ok_spec in Hstatus. settle.
    rewrite Hfetch, Hstatus, Hjson. reflexivity. }
  split; [intros data e; unfold createPost; apply fetchData_throws_typed|].
  split.
  { intros userId e. unfold fetchUserById.
    destruct (UUID_RE_test userId); cbn [negb].
    - apply fetchData_throws_typed.
    - intros H; inversion H; reflexivity. }
  split; [apply deleteResource_throws_typed|].
  split.
  - intros userId data. unfold updateUser.
    destruct (UUID_RE_test userId); cbn [negb]; [|reflexivity].
    destruct (truthy (name data)), (truthy (email data));
      cbn [negb orb andb]; try reflexivity.
    intros e. apply fetchData_throws_typed.
  - intros postId. unfold deletePost.
    destruct (UUID_RE_test postId); cbn [negb]; [|reflexivity].
    intros e. apply deleteResource_throws_typed.
Qed.

(** The 404 of scenario 2 reaches the caller of [deleteResource] as the
    [FetchError] of [fetchData], and [updateUser] with the identifier
    ["abc"] throws its plain [Error] without a request. *)
Lemma failures_are_typed_404 :
  (exists e,
     outcome (deleteResource (server (Returns NOT_FOUND_404)) "/api/posts/1")
     = Throws e
     /\ instanceof_FetchError e = true)
  /\ updateUser (server (Returns NOT_FOUND_404)) "abc"
       [ ("name", VStr "Jane"); ("email", VStr "jane@x.com") ]
     = ([], Throws (JsError "Error" "Invalid user ID format")).
Proof.
  destruct (failures_are_typed (server (Returns NOT_FOUND_404)))
    as (_ & _ & _ & _ & _ & Hdelete & Hupdate & _).
  split.
  - eexists. split; [reflexivity|].
    apply (Hdelete "/api/posts/1"). reflexivity.
  - apply (Hupdate "abc" [ ("name", VStr "Jane"); ("email", VStr "jane@x.com") ]).
Defined.

(** C6 as stated fails: [deletePost("abc")] rejects with a plain [Error],
    which is no [FetchError]. *)
Lemma deletePost_throws_plain_Error :
  outcome (deletePost (server (Returns NO_CONTENT_204)) "abc")
  = Throws (JsError "Error" "Invalid post ID format")
  /\ instanceof_FetchError (JsError "Error" "Invalid post ID format") = false.
Proof. split; reflexivity. Qed.

(** C7.  [deletePost] with an identifier that is not of the canonical
    8-4-4-4-12 hexadecimal form throws ["Invalid post ID format"] and
    issues no request; with one that is, it is the call
    [deleteResource("/api/posts/" + postId)], which issues the one DELETE
    request. *)
Theorem deletePost_checks_id (pf : Platform) (postId : string) :
  (~ canonical_uuid postId ->
     deletePost pf postId
     = ([], Throws (JsError "Error" "Invalid post ID format")))
  /\ (canonical_uuid postId ->
        deletePost pf postId = deleteResource pf ("/api/posts/" +:+ postId)
        /\ calls (deletePost pf postId)
           = [ {| call_url := "/api/posts/" +:+ postId;
                  call_init := {| method := Some "DELETE";
                                  headers := Some DEFAULT_HEADERS;
                                  body := None |} |} ]).
Proof.
  unfold deletePost. split.
  - intros H. apply UUID_RE_test_false in H. rewrite H. reflexivity.
  - intros H. apply UUID_RE_test_canonical in H. rewrite H. cbn [negb].
    split; [reflexivity|].
    rewrite deleteResource_settles. unfold calls at 1. cbn [fst].
    rewrite fetchData_settles. reflexivity.
Qed.

(** Scenario 4 of the specification, and a well-formed identifier. *)
Lemma deletePost_checks_id_scenario :
  deletePost (server (Returns (OK_200 VNull))) "abc"
  = ([], Throws (JsError "Error" "Invalid post ID format"))
  /\ calls (deletePost (server (Returns (OK_200 VNull))) JANE_ID)
     = [ {| call_url := "/api/posts/" +:+ JANE_ID;
            call_init := {| method := Some "DELETE";
                            headers := Some DEFAULT_HEADERS;
                            body := None |} |} ].
Proof.
  split.
  - apply (deletePost_checks_id (server (Returns (OK_200 VNull))) "abc").
    intros H. apply UUID_RE_test_canonical in H. discriminate H.
  - apply (deletePost_checks_id (server (Returns (OK_200 VNull))) JANE_ID).
    apply UUID_RE_test_canonical. reflexivity.
Defined.

(** C8, as amended.  A call of [fetchData] whose [headers] option is
    left out or is a plain object issues exactly one request, whose
    headers are the caller's properties over the default
    [Content-Type: application/json]: a key the caller supplied reads the
    caller's value, any other key reads the default. *)
Theorem fetchData_request_headers (pf : Platform) (url : string)
  (options : option FetchOptions) (caller : gmap string value) :
  let fo := fetchOptions (default EMPTY_OPTIONS options) in
  headers fo = Some (HeadersRecord caller)
  \/ (headers fo = None /\ caller = ∅) ->
  exists merged : gmap string value,
    calls (fetchData pf url options)
    = [ {| call_url := url;
           call_init := {| method := method fo;
                           headers := Some (HeadersRecord merged);
                           body := body fo |} |} ]
    /\ forall key : string,
         merged !! key =
           match caller !! key with
           | Some v => Some v
           | None => if decide (key = "Content-Type")
                     then Some (VStr "application/json") else None
           end.
Proof.
  intros fo Hcaller. exists (spread DEFAULT_RECORD (headers fo)). split.
  - rewrite fetchData_settles. reflexivity.
  - intros key.
    assert (Hdefault : DEFAULT_RECORD !! key
                       = if decide (key = "Content-Type")
                         then Some (VStr "application/json") else None).
    { unfold DEFAULT_RECORD.
      destruct (decide (key = "Content-Type")) as [->|Hne].
      - apply lookup_singleton_eq.
      - apply lookup_singleton_ne. congruence. }
    destruct Hcaller as [-> | [-> ->]].
    + rewrite spread_lookup, Hdefault. reflexivity.
    + rewrite spread_none, lookup_empty. exact Hdefault.
Qed.

(** A caller's [Content-Type] replaces the default, and its other headers
    are sent along. *)
Lemma fetchData_request_headers_caller :
  exists merged : gmap string value,
    calls (fetchData (server (Returns (OK_200 VNull))) "/api/posts"
             (WITH_HEADERS (HeadersRecord CALLER_HEADERS)))
    = [ {| call_url := "/api/posts";
           call_init := {| method := None;
                           headers := Some (HeadersRecord merged);
                           body := None |} |} ]
    /\ forall key : string,
         merged !! key =
           match CALLER_HEADERS !! key with
           | Some v => Some v
           | None => if decide (key = "Content-Type")
                     then Some (VStr "application/json") else None
           end.
Proof.
  apply (fetchData_request_headers (server (Returns (OK_200 VNull)))
           "/api/posts" (WITH_HEADERS (HeadersRecord CALLER_HEADERS))
           CALLER_HEADERS).
  left. reflexivity.
Defined.

(** C8 as stated fails: the entries of a [Headers] instance are no
    properties of the object, so the spread of line 117 copies none of
    them and the request carries the default header alone. *)
Lemma fetchData_drops_Headers_instance :
  calls (fetchData (server (Returns (OK_200 VNull))) "/api/posts"
           (WITH_HEADERS CALLER_HEADERS_INSTANCE))
  = [ {| call_url := "/api/posts";
         call_init := {| method := None;
                         headers := Some (HeadersRecord DEFAULT_RECORD);
                         body := None |} |} ]
  /\ DEFAULT_RECORD !! "authorization" = None
  /\ DEFAULT_RECORD !! "Authorization" = None.
Proof.
  split; [rewrite fetchData_settles; reflexivity|].
  split; vm_compute; reflexivity.
Qed.

(** C9, as amended.  When [data.name] or [data.email] is the empty string
    (or missing), [updateUser] issues no request and throws: with an
    identifier of the canonical form the message is
    ["Name and email are required"]; with any other identifier the
    identifier check comes first and the message is
    ["Invalid user ID format"]. *)
Theorem updateUser_rejects_empty (pf : Platform) (userId : string)
  (data : UserInput) :
  name data = VStr "" \/ email data = VStr ""
  \/ name data = VUndefined \/ email data = VUndefined ->
  (canonical_uuid userId ->
     updateUser pf userId data
     = ([], Throws (JsError "Error" "Name and email are required")))
  /\ (~ canonical_uuid userId ->
        updateUser pf userId data
        = ([], Throws (JsError "Error" "Invalid user ID format"))).
Proof.
  intros Hempty.
  assert (Hfalsy : negb (truthy (name data)) || negb (truthy (email data)) = true).
  { destruct Hempty as [H|[H|[H|H]]]; rewrite H; cbn [truthy negb orb];
      try reflexivity; apply orb_true_r. }
  unfold updateUser. split; intros H.
  - apply UUID_RE_test_canonical in H. rewrite H. cbn [negb].
    rewrite Hfalsy. reflexivity.
  - apply UUID_RE_test_false in H. rewrite H. reflexivity.
Qed.

(** An empty name with a well-formed identifier. *)
Lemma updateUser_rejects_empty_name :
  updateUser (server (Returns (OK_200 JANE))) JANE_ID
    [ ("name", VStr ""); ("email", VStr "jane@x.com") ]
  = ([], Throws (JsError "Error" "Name and email are required")).
Proof.
  apply (updateUser_rejects_empty (server (Returns (OK_200 JANE))) JANE_ID
           [ ("name", VStr ""); ("email", VStr "jane@x.com") ]).
  - left. reflexivity.
  - apply UUID_RE_test_canonical. reflexivity.
Defined.

(** C9 as stated fails: with the identifier ["abc"] and an empty name the
    message is that of the identifier check. *)
Lemma updateUser_bad_id_first :
  updateUser (server (Returns (OK_200 JANE))) "abc"
    [ ("name", VStr ""); ("email", VStr "jane@x.com") ]
  = ([], Throws (JsError "Error" "Invalid user ID format")).
Proof. reflexivity. Qed.

(** C10.  For a value [e] thrown in the [try] block of [fetchData]: if [e]
    is no [Error] instance (so neither a [FetchError] nor a [ZodError]),
    [fetchData] throws [FetchError("Unknown error")] with no [status] and
    no [data]; if [e] is a [FetchError], [fetchData] throws [e] itself. *)
Theorem fetchData_catch_policy (pf : Platform) (url : string)
  (options : option FetchOptions) (e : value) :
  outcome (fetchData_try pf url (schema (default EMPTY_OPTIONS options))
             (fetchOptions (default EMPTY_OPTIONS options))) = Throws e ->
  (instanceof_Error e = false -> instanceof_FetchError e = false ->
   instanceof_ZodError e = false ->
   outcome (fetchData pf url options)
   = Throws (FetchError "Unknown error" None VUndefined))
  /\ (instanceof_FetchError e = true ->
      outcome (fetchData pf url options) = Throws e).
Proof.
  intros Htry. rewrite (fetchData_try_throws pf url options e Htry).
  split.
  - intros HE _ _. destruct e; try discriminate HE; reflexivity.
  - intros HF. destruct e; try discriminate HF. reflexivity.
Qed.

(** A request aborted with a string reason, and the [FetchError] of line
    123 passing through the [catch] block. *)
Lemma fetchData_catch_policy_scenarios :
  outcome (fetchData (server (Throws (VStr "timeout"))) "/api/posts" None)
  = Throws (FetchError "Unknown error" None VUndefined)
  /\ outcome (fetchData (server (Returns NOT_FOUND_404)) "/api/posts" None)
     = Throws (FetchError "HTTP error! status: 404" (Some 404) NOT_FOUND_BODY).
Proof.
  split.
  - apply (fetchData_catch_policy (server (Throws (VStr "timeout")))
             "/api/posts" None (VStr "timeout"));
      reflexivity.
  - apply (fetchData_catch_policy (server (Returns NOT_FOUND_404))
             "/api/posts" None
             (FetchError "HTTP error! status: 404" (Some 404) NOT_FOUND_BODY));
      reflexivity.
Defined.

(* ===================================================================== *)
(** ** Further examples                                                   *)
(* ===================================================================== *)

(** A transport failure carries the message of the underlying error, and
    neither status nor data. *)
Example fetchData_transport_failure :
  outcome (fetchData (server (Throws (JsError "TypeError" "Failed to fetch")))
             "/api/posts" None)
  = Throws (FetchError "Failed to fetch" None VUndefined).
Proof. settle. reflexivity. Qed.

(* ===================================================================== *)
(** ** Schemas: what they accept                                          *)
(* ===================================================================== *)

Section Schemas.

Variable pf : Platform.

Lemma format_string_schema (test : string -> bool) :
  string_schema (z.format test).
Proof.
  intros v. destruct v; simpl; try (right; eexists; reflexivity).
  destruct (test s); [left | right]; eauto.
Qed.

Lemma min_string_schema (n : nat) : string_schema (z.min n z.string_).
Proof.
  intros v. destruct v; simpl; try (right; eexists; reflexivity).
  destruct (Nat.leb n (String.length s)); [left | right]; eauto.
Qed.

Lemma string_string_schema : string_schema z.string_.
Proof.
  intros v. destruct v; simpl; try (right; eexists; reflexivity).
  left. eauto.
Qed.

(** A shape of string fields never ends the check early; it has no issue
    exactly when every field is accepted, and then keeps every key. *)
Lemma parse_shape_strings (shape : list (string * ZodType))
  (input : list (string * value)) :
  Forall (fun ks => string_schema (snd ks)) shape ->
  exists out issues,
    z.parse_shape shape input = Returns (out, issues)
    /\ (issues = [] <->
        Forall (fun ks => parse (snd ks) (z.get (fst ks) input)
                          = Returns (z.get (fst ks) input)) shape)
    /\ (issues = [] -> out = pick shape input).
Proof.
  induction 1 as [|[key s] shape Hs Hshape IH]; cbn [z.parse_shape].
  - exists [], []. repeat split; constructor.
  - destruct IH as (out & issues & -> & Hiff & Hout).
    cbn [fst snd] in *.
    destruct (Hs (z.get key input)) as [(x & Hx & Hp)|(i & Hp)]; rewrite Hp.
    + rewrite Hx. exists ((key, VStr x) :: out), issues.
      split; [reflexivity|]. split.
      * rewrite Hiff. split.
        -- intros Hall. constructor; [cbn [fst snd]; congruence | exact Hall].
        -- intros Hall. inversion Hall; assumption.
      * intros Hnil. unfold pick. cbn [map fst]. rewrite Hx.
        f_equal. apply Hout, Hnil.
    + exists out, (map (z.under (Key key)) [i] ++ issues).
      split; [reflexivity|]. split; [split|]; try discriminate.
      intros Hall. inversion Hall as [|? ? Hhead _]; subst.
      cbn [fst snd] in Hhead. congruence.
Qed.

(** An object of string fields accepts the objects whose named fields are
    all accepted, and returns those fields alone. *)
Lemma object_strings_accepts (shape : list (string * ZodType)) (v out : value) :
  Forall (fun ks => string_schema (snd ks)) shape ->
  parse (z.object shape) v = Returns out <->
  exists input,
    v = VObj input
    /\ Forall (fun ks => parse (snd ks) (z.get (fst ks) input)
                         = Returns (z.get (fst ks) input)) shape
    /\ out = VObj (pick shape input).
Proof.
  intros Hshape. split.
  - destruct v; cbn [parse z.object]; try discriminate.
    destruct (parse_shape_strings shape fields Hshape)
      as (o & issues & -> & Hiff & Hout).
    destruct issues as [|i issues]; [|discriminate].
    intros H. inversion H; subst. exists fields.
    split; [reflexivity|]. split; [apply Hiff; reflexivity|].
    rewrite Hout; reflexivity.
  - intros (input & -> & Hall & ->). cbn [parse z.object].
    destruct (parse_shape_strings shape input Hshape)
      as (o & issues & -> & Hiff & Hout).
    apply Hiff in Hall. subst issues. rewrite Hout; reflexivity.
Qed.

Lemma object_strings_zod (shape : list (string * ZodType)) :
  Forall (fun ks => string_schema (snd ks)) shape ->
  zod_schema (z.object shape).
Proof.
  intros Hshape v e.
  destruct v; cbn [parse z.object]; unfold z.invalid;
    try (intros H; inversion H; eauto; fail).
  destruct (parse_shape_strings shape fields Hshape)
    as (o & issues & Hp & _ & _). rewrite Hp.
  destruct issues; [discriminate|]. intros H; inversion H; eauto.
Qed.

Lemma userSchema_strings :
  Forall (fun ks => string_schema (snd ks))
    [ ("id", z.uuid pf); ("name", z.min 1 z.string_); ("email", z.email pf);
      ("createdAt", z.iso_datetime pf) ].
Proof.
  repeat (apply Forall_cons_2;
          [cbn [snd]; first [apply format_string_schema | apply min_string_schema]|]).
  apply Forall_nil_2.
Qed.

Lemma postSchema_strings :
  Forall (fun ks => string_schema (snd ks))
    [ ("id", z.uuid pf); ("title", z.min 1 z.string_); ("content", z.string_);
      ("authorId", z.uuid pf); ("createdAt", z.iso_datetime pf);
      ("updatedAt", z.iso_datetime pf) ].
Proof.
  repeat (apply Forall_cons_2;
          [cbn [snd]; first [apply format_string_schema | apply min_string_schema
                            | apply string_string_schema]|]).
  apply Forall_nil_2.
Qed.

Lemma format_accepts (test : string -> bool) (v : value) :
  parse (z.format test) v = Returns v <-> exists x, v = VStr x /\ test x = true.
Proof.
  split.
  - destruct v; simpl; try discriminate.
    destruct (test s) eqn:E; [eauto | discriminate].
  - intros (x & -> & E). simpl. rewrite E. reflexivity.
Qed.

Lemma min1_accepts (v : value) :
  parse (z.min 1 z.string_) v = Returns v <-> exists x, v = VStr x /\ x <> "".
Proof.
  split.
  - destruct v; simpl; try discriminate.
    destruct s; simpl; [discriminate|]. intros _. eexists. split; [reflexivity|discriminate].
  - intros (x & -> & E). destruct x; [congruence|]. reflexivity.
Qed.

Lemma string_accepts (v : value) :
  parse z.string_ v = Returns v <-> exists x, v = VStr x.
Proof.
  split.
  - destruct v; simpl; try discriminate. eauto.
  - intros (x & ->). reflexivity.
Qed.

End Schemas.

Section Arrays.

Variable s : ZodType.
Hypothesis Hs : zod_schema s.

(** The items of an array never end the check early; there is no issue
    exactly when every item is accepted. *)
Lemma parse_items_zod (items : list value) :
  forall i, exists out issues,
    z.parse_items s i items = Returns (out, issues)
    /\ (issues = [] <-> Forall2 (fun v o => parse s v = Returns o) items out).
Proof.
  induction items as [|v items IH]; intros i; cbn [z.parse_items].
  - exists [], []. split; [reflexivity|]. split; constructor.
  - destruct (IH (S i)) as (out & issues & -> & Hiff).
    destruct (parse s v) as [o|e] eqn:Hp.
    + exists (o :: out), issues. split; [reflexivity|].
      rewrite Hiff. split.
      * intros Hall. constructor; assumption.
      * intros Hall. inversion Hall; assumption.
    + destruct (Hs v e Hp) as (j & found & ->).
      exists out, (map (z.under (Index i)) (j :: found) ++ issues).
      split; [reflexivity|]. split; [discriminate|].
      intros Hall. destruct out as [|o out]; inversion Hall; subst. congruence.
Qed.

(** An array schema accepts the arrays whose items are all accepted, and
    returns the validated items in order. *)
Lemma array_accepts (v out : value) :
  parse (z.array s) v = Returns out <->
  exists items outs,
    v = VArr items /\ out = VArr outs
    /\ Forall2 (fun x o => parse s x = Returns o) items outs.
Proof.
  split.
  - destruct v; cbn [parse z.array]; try discriminate.
    destruct (parse_items_zod items 0%nat) as (o & issues & -> & Hiff).
    destruct issues as [|i issues]; [|discriminate].
    intros H. inversion H; subst. exists items, o.
    repeat split. apply Hiff. reflexivity.
  - intros (items & outs & -> & -> & Hall). cbn [parse z.array].
    destruct (parse_items_zod items 0%nat) as (o & issues & Hp & Hiff).
    rewrite Hp.
    assert (Hsame : o = outs /\ issues = []).
    { clear Hiff. revert o issues Hp. generalize 0%nat.
      induction Hall as [|x y items outs Hxy Hall IH];
        intros i o issues; cbn [z.parse_items].
      - intros H; inversion H; auto.
      - rewrite Hxy.
        destruct (z.parse_items s (S i) items) as [[o' issues']|e] eqn:E;
          [|discriminate].
        intros H; inversion H; subst.
        destruct (IH _ _ _ E) as [-> ->]. auto. }
    destruct Hsame as [-> ->]. reflexivity.
Qed.

Lemma array_zod : zod_schema (z.array s).
Proof.
  intros v e.
  destruct v; cbn [parse z.array]; unfold z.invalid;
    try (intros H; inversion H; eauto; fail).
  destruct (parse_items_zod items 0%nat) as (o & issues & Hp & _).
  rewrite Hp. destruct issues; [discriminate|]. intros H; inversion H; eauto.
Qed.

End Arrays.

Section SchemaProperties.

Variable pf : Platform.

(** X14.  [userSchema] accepts exactly the objects whose [id], [name],
    [email] and [createdAt] are strings that pass the uuid, non-empty,
    email and datetime checks; it returns those four fields alone, in the
    order of the shape, so that every other key of the input is dropped. *)
Theorem userSchema_accepts (v out : value) :
  parse (userSchema pf) v = Returns out <->
  exists input,
    v = VObj input
    /\ out = VObj [ ("id", z.get "id" input); ("name", z.get "name" input);
                    ("email", z.get "email" input);
                    ("createdAt", z.get "createdAt" input) ]
    /\ is_User pf out.
Proof.
  unfold userSchema.
  rewrite (object_strings_accepts _ _ _ (userSchema_strings pf)).
  unfold pick, is_User. cbn [map fst snd].
  split.
  - intros (input & -> & Hall & ->). exists input.
    split; [reflexivity|]. split; [reflexivity|].
    inversion Hall as [|? ? H1 Hall1]; subst; clear Hall.
    inversion Hall1 as [|? ? H2 Hall2]; subst; clear Hall1.
    inversion Hall2 as [|? ? H3 Hall3]; subst; clear Hall2.
    inversion Hall3 as [|? ? H4 _]; subst; clear Hall3.
    cbn [fst snd] in *.
    apply format_accepts in H1, H3, H4. apply min1_accepts in H2.
    destruct H1 as (id & -> & ?), H2 as (nm & -> & ?),
      H3 as (em & -> & ?), H4 as (ca & -> & ?).
    exists id, nm, em, ca. auto.
  - intros (input & -> & -> & (id & nm & em & ca & Heq & F1 & F2 & F3 & F4)).
    exists input. split; [reflexivity|]. split; [|reflexivity].
    inversion Heq as [[E1 E2 E3 E4]].
    repeat apply Forall_cons_2; cbn [fst snd]; try apply Forall_nil_2;
      rewrite ?E1, ?E2, ?E3, ?E4;
      first [apply format_accepts | apply min1_accepts]; eauto.
Qed.

End SchemaProperties.

Section SchemaResults.

Variable pf : Platform.

(** X15.  [postSchema] accepts exactly the objects whose six fields are
    strings, with [id] and [authorId] passing the uuid check, the two
    dates the datetime check and [title] non-empty ([content] may be
    empty); it returns those six fields alone. *)
Theorem postSchema_accepts (v out : value) :
  parse (postSchema pf) v = Returns out <->
  exists input,
    v = VObj input
    /\ out = VObj [ ("id", z.get "id" input); ("title", z.get "title" input);
                    ("content", z.get "content" input);
                    ("authorId", z.get "authorId" input);
                    ("createdAt", z.get "createdAt" input);
                    ("updatedAt", z.get "updatedAt" input) ]
    /\ is_Post pf out.
Proof.
  unfold postSchema.
  rewrite (object_strings_accepts _ _ _ (postSchema_strings pf)).
  unfold pick, is_Post. cbn [map fst snd].
  split.
  - intros (input & -> & Hall & ->). exists input.
    split; [reflexivity|]. split; [reflexivity|].
    inversion Hall as [|? ? H1 Hall1]; subst; clear Hall.
    inversion Hall1 as [|? ? H2 Hall2]; subst; clear Hall1.
    inversion Hall2 as [|? ? H3 Hall3]; subst; clear Hall2.
    inversion Hall3 as [|? ? H4 Hall4]; subst; clear Hall3.
    inversion Hall4 as [|? ? H5 Hall5]; subst; clear Hall4.
    inversion Hall5 as [|? ? H6 _]; subst; clear Hall5.
    cbn [fst snd] in *.
    apply format_accepts in H1, H4, H5, H6. apply min1_accepts in H2.
    apply string_accepts in H3.
    destruct H1 as (id & -> & ?), H2 as (ti & -> & ?), H3 as (co & ->),
      H4 as (au & -> & ?), H5 as (ca & -> & ?), H6 as (ua & -> & ?).
    exists id, ti, co, au, ca, ua. auto 10.
  - intros (input & -> & ->
            & (id & ti & co & au & ca & ua & Heq & F1 & F2 & F3 & F4 & F5)).
    exists input. split; [reflexivity|]. split; [|reflexivity].
    inversion Heq as [[E1 E2 E3 E4 E5 E6]].
    repeat apply Forall_cons_2; cbn [fst snd]; try apply Forall_nil_2;
      rewrite ?E1, ?E2, ?E3, ?E4, ?E5, ?E6;
      first [apply format_accepts | apply min1_accepts | apply string_accepts];
      eauto.
Qed.

Lemma userSchema_zod : zod_schema (userSchema pf).
Proof. apply object_strings_zod, userSchema_strings. Qed.

Lemma postSchema_zod : zod_schema (postSchema pf).
Proof. apply object_strings_zod, postSchema_strings. Qed.

(** What a validated call returns went through the schema. *)
Lemma fetchData_returns_validated (url : string) (s : ZodType)
  (fo : RequestInit) (v : value) :
  outcome (fetchData pf url (Some {| schema := Some s; fetchOptions := fo |}))
  = Returns v ->
  exists data, parse s data = Returns v.
Proof.
  settle. simpl schema.
  destruct (fetch pf url _) as [response|e]; [|discriminate].
  destruct (ok response); [|discriminate].
  destruct (json response) as [data|e]; [|discriminate].
  destruct (parse s data) as [w|e] eqn:E; [|discriminate].
  intros H; inversion H; subst. eauto.
Qed.

End SchemaResults.

(* ===================================================================== *)
(** ** The queries and mutations                                          *)
(* ===================================================================== *)

Section PatternProperties.

Lemma match_repeat_map (f : ascii -> ascii) (cls : CharClass) :
  (forall c, cls (f c) = cls c) ->
  forall n s,
    match_repeat cls n (map_chars f s)
    = map_chars f <$> match_repeat cls n s.
Proof.
  intros Hcls. induction n as [|n IH]; intros s; cbn [match_repeat].
  - reflexivity.
  - destruct s as [|c s]; cbn [map_chars]; [reflexivity|].
    rewrite Hcls. destruct (cls c); [apply IH | reflexivity].
Qed.

Lemma regex_test_map (f : ascii -> ascii) (re : Regex) :
  Forall (fun cn => forall c, fst cn (f c) = fst cn c) re ->
  forall s, regex_test re (map_chars f s) = regex_test re s.
Proof.
  induction 1 as [|[cls n] re Hcls Hre IH]; intros s; cbn [regex_test].
  - destruct s; reflexivity.
  - cbn [fst] in Hcls. rewrite (match_repeat_map f cls Hcls).
    destruct (match_repeat cls n s) as [rest|]; cbn [fmap option_fmap option_map];
      [apply IH | reflexivity].
Qed.

Lemma match_repeat_length (cls : CharClass) (n : nat) :
  forall s rest, match_repeat cls n s = Some rest ->
    String.length s = (n + String.length rest)%nat.
Proof.
  induction n as [|n IH]; cbn [match_repeat]; intros s rest H.
  - inversion H; reflexivity.
  - destruct s as [|c s]; [discriminate|].
    destruct (cls c); [|discriminate].
    cbn [String.length]. rewrite (IH _ _ H). reflexivity.
Qed.

Lemma regex_test_length (re : Regex) :
  forall s, regex_test re s = true -> String.length s = pattern_length re.
Proof.
  induction re as [|[cls n] re IH]; intros s; cbn [regex_test pattern_length fold_right].
  - destruct s; [reflexivity | discriminate].
  - destruct (match_repeat cls n s) as [rest|] eqn:E; [|discriminate].
    intros H. rewrite (match_repeat_length _ _ _ _ E), (IH _ H). reflexivity.
Qed.

Lemma UUID_RE_case_blind (f : ascii -> ascii) :
  (forall c, hex_i (f c) = hex_i c) -> (forall c, hyphen (f c) = hyphen c) ->
  Forall (fun cn : CharClass * nat => forall c, fst cn (f c) = fst cn c) UUID_RE.
Proof.
  intros Hhex Hhy. unfold UUID_RE.
  repeat (apply Forall_cons_2; [cbn [fst]; assumption|]). apply Forall_nil_2.
Qed.

Lemma upper_classes (c : ascii) :
  hex_i (upper c) = hex_i c /\ hyphen (upper c) = hyphen c
  /\ hex_i (lower c) = hex_i c /\ hyphen (lower c) = hyphen c.
Proof. destruct c as [[] [] [] [] [] [] [] []]; repeat split; reflexivity. Qed.

End PatternProperties.

(** Splits a string of known length into its characters. *)
Ltac explode g H :=
  repeat (destruct g as [|? g]; cbn [String.length] in H;
          [try discriminate H | try discriminate H; apply Nat.succ_inj in H]).

(** X12.  An identifier the pattern accepts has 36 characters, with
    hyphens at the positions 8, 13, 18 and 23. *)
Theorem UUID_RE_test_layout (id : string) :
  UUID_RE_test id = true ->
  String.length id = 36%nat
  /\ String.get 8 id = Some "-"%char /\ String.get 13 id = Some "-"%char
  /\ String.get 18 id = Some "-"%char /\ String.get 23 id = Some "-"%char.
Proof.
  intros H. split; [apply regex_test_length in H; exact H|].
  apply UUID_RE_test_canonical in H.
  destruct H as (g1 & g2 & g3 & g4 & g5 & -> & [L1 _] & [L2 _] & [L3 _]
                 & [L4 _] & _).
  explode g1 L1. explode g2 L2. explode g3 L3. explode g4 L4.
  repeat split; reflexivity.
Qed.

Lemma UUID_RE_test_layout_jane :
  String.length JANE_ID = 36%nat
  /\ String.get 8 JANE_ID = Some "-"%char /\ String.get 13 JANE_ID = Some "-"%char
  /\ String.get 18 JANE_ID = Some "-"%char /\ String.get 23 JANE_ID = Some "-"%char.
Proof. apply UUID_RE_test_layout. reflexivity. Defined.

(** X13.  The pattern is blind to ASCII case: an identifier is accepted
    exactly when its upper-cased and its lower-cased forms are. *)
Theorem UUID_RE_test_case_insensitive (id : string) :
  UUID_RE_test (toUpperCase id) = UUID_RE_test id
  /\ UUID_RE_test (toLowerCase id) = UUID_RE_test id.
Proof.
  unfold UUID_RE_test, toUpperCase, toLowerCase.
  split; apply regex_test_map, UUID_RE_case_blind; intros c; apply upper_classes.
Qed.

(** X4.  [fetchUserById] with an identifier that is not of the canonical
    form issues no request and throws
    [FetchError("Invalid user ID format")] with neither status nor data;
    with one that is, it issues the one request: no method (a GET), the
    default header, no body, to ["/api/users/" + userId]. *)
Theorem fetchUserById_checks_id (pf : Platform) (userId : string) :
  (~ canonical_uuid userId ->
     fetchUserById pf userId
     = ([], Throws (FetchError "Invalid user ID format" None VUndefined)))
  /\ (canonical_uuid userId ->
        calls (fetchUserById pf userId) = [GET_CALL ("/api/users/" +:+ userId)]).
Proof.
  unfold fetchUserById. split; intros H.
  - apply UUID_RE_test_false in H. rewrite H. reflexivity.
  - apply UUID_RE_test_canonical in H. rewrite H. cbn [negb].
    settle. reflexivity.
Qed.

Lemma fetchUserById_checks_id_scenario :
  fetchUserById (server (Returns (OK_200 JANE))) "42"
  = ([], Throws (FetchError "Invalid user ID format" None VUndefined))
  /\ calls (fetchUserById (server (Returns (OK_200 JANE))) JANE_ID)
     = [GET_CALL ("/api/users/" +:+ JANE_ID)].
Proof.
  split.
  - apply (fetchUserById_checks_id (server (Returns (OK_200 JANE))) "42").
    intros H. apply UUID_RE_test_canonical in H. discriminate H.
  - apply (fetchUserById_checks_id (server (Returns (OK_200 JANE))) JANE_ID).
    apply UUID_RE_test_canonical. reflexivity.
Defined.

(** X5.  Whatever [fetchUserById] returns is a user record: exactly the
    fields [id], [name], [email], [createdAt], each a string that passed
    its check; and it returns only for an identifier of the canonical
    form. *)
Theorem fetchUserById_returns_user (pf : Platform) (userId : string) (v : value) :
  outcome (fetchUserById pf userId) = Returns v ->
  is_User pf v /\ canonical_uuid userId.
Proof.
  unfold fetchUserById.
  destruct (UUID_RE_test userId) eqn:Hid; cbn [negb]; [|discriminate].
  intros H. apply fetchData_returns_validated in H. destruct H as (data & H).
  apply userSchema_accepts in H. destruct H as (input & _ & _ & Huser).
  split; [exact Huser | apply UUID_RE_test_canonical, Hid].
Qed.

Lemma fetchUserById_returns_jane :
  is_User (server (Returns (OK_200 JANE))) JANE /\ canonical_uuid JANE_ID.
Proof.
  apply (fetchUserById_returns_user (server (Returns (OK_200 JANE))) JANE_ID JANE).
  reflexivity.
Defined.

(** X7.  [fetchPosts] issues one GET request to ["/api/posts"], and
    whatever it returns is an array of post records, each with exactly the
    six validated fields. *)
Theorem fetchPosts_returns_posts (pf : Platform) :
  calls (fetchPosts pf) = [GET_CALL "/api/posts"]
  /\ forall v, outcome (fetchPosts pf) = Returns v ->
       exists posts, v = VArr posts /\ Forall (is_Post pf) posts.
Proof.
  unfold fetchPosts. split; [settle; reflexivity|]. intros v H.
  apply fetchData_returns_validated in H. destruct H as (data & H).
  apply (array_accepts _ (postSchema_zod pf)) in H.
  destruct H as (items & outs & _ & -> & Hall).
  exists outs. split; [reflexivity|].
  induction Hall as [|x o items outs Hxo _ IH]; constructor; [|exact IH].
  apply postSchema_accepts in Hxo. destruct Hxo as (input & _ & _ & Hpost).
  exact Hpost.
Qed.

Lemma fetchPosts_returns_sample :
  exists posts,
    VArr [SAMPLE_POST] = VArr posts
    /\ Forall (is_Post (server (Returns (OK_200 (VArr [SAMPLE_POST]))))) posts.
Proof.
  apply (fetchPosts_returns_posts (server (Returns (OK_200 (VArr [SAMPLE_POST]))))).
  reflexivity.
Defined.

(** X10.  [createPost] checks nothing of its input: for every object it is
    given, empty title included, it issues one POST request to
    ["/api/posts"] whose body is that object serialised as it is; and
    whatever it returns is a post record with exactly the six validated
    fields. *)
Theorem createPost_posts (pf : Platform) (data : PostInput) :
  calls (createPost pf data)
  = [ mutation_call pf "POST" "/api/posts" (VObj data) ]
  /\ forall v, outcome (createPost pf data) = Returns v -> is_Post pf v.
Proof.
  unfold createPost. split; [settle; reflexivity|]. intros v H.
  apply fetchData_returns_validated in H. destruct H as (received & H).
  apply postSchema_accepts in H. destruct H as (input & _ & _ & Hpost).
  exact Hpost.
Qed.

(** An empty title, given after the content, is sent as it is. *)
Lemma createPost_posts_empty_title :
  calls (createPost (server (Returns (OK_200 SAMPLE_POST)))
           [ ("content", VStr "Hi"); ("title", VStr "") ])
  = [ mutation_call (server (Returns (OK_200 SAMPLE_POST))) "POST" "/api/posts"
        (VObj [ ("content", VStr "Hi"); ("title", VStr "") ]) ]
  /\ is_Post (server (Returns (OK_200 SAMPLE_POST))) SAMPLE_POST.
Proof.
  split.
  - apply (createPost_posts (server (Returns (OK_200 SAMPLE_POST)))
             [ ("content", VStr "Hi"); ("title", VStr "") ]).
  - apply (createPost_posts (server (Returns (OK_200 SAMPLE_POST)))
             [ ("content", VStr "Hi"); ("title", VStr "") ]).
    reflexivity.
Defined.

Lemma issued_mutation (pf : Platform) (verb url : string) (data : value) :
  issued url
    (Some {| schema := None;
             fetchOptions := {| method := Some verb; headers := None;
                                body := Some (JSON_stringify pf data) |} |})
  = mutation_call pf verb url data.
Proof. reflexivity. Qed.

(** X8.  [createResource], [updateResource] and [patchResource] issue one
    request each, whatever the answer: method POST, PUT and PATCH, the
    serialised [data] as body and the default header.  They validate
    nothing: on a 2xx response whose body parses they return the parsed
    body as it is. *)
Theorem resource_mutations_unvalidated (pf : Platform) (url : string)
  (data : value) :
  calls (createResource pf url data) = [mutation_call pf "POST" url data]
  /\ calls (updateResource pf url data) = [mutation_call pf "PUT" url data]
  /\ calls (patchResource pf url data) = [mutation_call pf "PATCH" url data]
  /\ forall (response : Response) (parsed : value),
       200 <= status response <= 299 ->
       json response = Returns parsed ->
       (fetch pf url (call_init (mutation_call pf "POST" url data))
        = Returns response ->
        outcome (createResource pf url data) = Returns parsed)
       /\ (fetch pf url (call_init (mutation_call pf "PUT" url data))
           = Returns response ->
           outcome (updateResource pf url data) = Returns parsed)
       /\ (fetch pf url (call_init (mutation_call pf "PATCH" url data))
           = Returns response ->
           outcome (patchResource pf url data) = Returns parsed).
Proof.
  unfold createResource, updateResource, patchResource.
  split; [|split; [|split]]; try (settle; reflexivity).
  intros response parsed Hok Hjson. apply ok_spec in Hok.
  repeat split; rewrite fetchData_settles, issued_mutation;
    unfold outcome; cbn [snd];
    intros Hfetch; rewrite Hfetch, Hok, Hjson; reflexivity.
Qed.

(** A record that [userSchema] would refuse comes back from
    [createResource] as it is; a 404 is answered to the same request. *)
Lemma resource_mutations_unvalidated_sample :
  createResource (server (Returns (OK_200 JANE_WITHOUT_EMAIL)))
    "/api/users" JANE_WITHOUT_EMAIL
  = ([mutation_call (server (Returns (OK_200 JANE_WITHOUT_EMAIL))) "POST"
        "/api/users" JANE_WITHOUT_EMAIL],
     Returns JANE_WITHOUT_EMAIL)
  /\ calls (patchResource (server (Returns NOT_FOUND_404)) "/api/users/1" JANE)
     = [mutation_call (server (Returns NOT_FOUND_404)) "PATCH" "/api/users/1" JANE].
Proof.
  split.
  - destruct (resource_mutations_unvalidated
                (server (Returns (OK_200 JANE_WITHOUT_EMAIL))) "/api/users"
                JANE_WITHOUT_EMAIL) as (Hcalls & _ & _ & Hreturns).
    destruct (Hreturns (OK_200 JANE_WITHOUT_EMAIL) JANE_WITHOUT_EMAIL)
      as (Hpost & _ & _); [simpl; lia | reflexivity |].
    apply injective_projections; [exact Hcalls | apply Hpost; reflexivity].
  - apply (resource_mutations_unvalidated (server (Returns NOT_FOUND_404))
             "/api/users/1" JANE).
Defined.

(** X9.  On a 2xx response [deleteResource] succeeds only when the body
    parses as JSON, and then drops the parsed body; when the parse fails
    with an [Error] (a 204 with no content), it throws a [FetchError] with
    that error's message. *)
Theorem deleteResource_needs_json (pf : Platform) (url : string)
  (response : Response) :
  fetch pf url (call_init (DELETE_CALL url)) = Returns response ->
  200 <= status response <= 299 ->
  (forall parsed, json response = Returns parsed ->
     deleteResource pf url = ([DELETE_CALL url], Returns tt))
  /\ (forall name message, json response = Throws (JsError name message) ->
        deleteResource pf url
        = ([DELETE_CALL url], Throws (FetchError message None VUndefined))).
Proof.
  intros Hfetch Hok. apply ok_spec in Hok.
  rewrite deleteResource_settles, fetchData_settles.
  unfold calls, outcome. cbn [fst snd].
  change (call_init (issued url _)) with (call_init (DELETE_CALL url)).
  rewrite Hfetch, Hok.
  split.
  - intros parsed Hjson. rewrite Hjson. reflexivity.
  - intros name message Hjson. rewrite Hjson. reflexivity.
Qed.

Lemma deleteResource_needs_json_204 :
  deleteResource (server (Returns NO_CONTENT_204)) "/api/posts/1"
  = ([DELETE_CALL "/api/posts/1"],
     Throws (FetchError "Unexpected end of JSON input" None VUndefined)).
Proof.
  apply (deleteResource_needs_json (server (Returns NO_CONTENT_204))
           "/api/posts/1" NO_CONTENT_204) with (name := "SyntaxError").
  - reflexivity.
  - simpl. lia.
  - reflexivity.
Defined.

(** X11.  [updateUser] with an identifier of the canonical form and a
    truthy name and email issues one PUT request to
    ["/api/users/" + userId] whose body is the caller's object serialised
    as it is; whatever it returns is a user record. *)
Theorem updateUser_sends (pf : Platform) (userId : string) (data : UserInput) :
  canonical_uuid userId ->
  truthy (name data) = true ->
  truthy (email data) = true ->
  calls (updateUser pf userId data)
  = [ mutation_call pf "PUT" ("/api/users/" +:+ userId) (VObj data) ]
  /\ forall v, outcome (updateUser pf userId data) = Returns v -> is_User pf v.
Proof.
  intros Hid Hname Hemail. apply UUID_RE_test_canonical in Hid.
  unfold updateUser. rewrite Hid, Hname, Hemail. cbn [negb orb]. split.
  - settle. reflexivity.
  - intros v H. apply fetchData_returns_validated in H.
    destruct H as (received & H). apply userSchema_accepts in H.
    destruct H as (input & _ & _ & Huser). exact Huser.
Qed.

(** The email given before the name, and a key outside the type: the
    object is sent in that order, with that key. *)
Lemma updateUser_sends_jane :
  calls (updateUser (server (Returns (OK_200 JANE))) JANE_ID
           [ ("email", VStr "jane@x.com"); ("name", VStr "Jane");
             ("role", VStr "admin") ])
  = [ mutation_call (server (Returns (OK_200 JANE))) "PUT"
        ("/api/users/" +:+ JANE_ID)
        (VObj [ ("email", VStr "jane@x.com"); ("name", VStr "Jane");
                ("role", VStr "admin") ]) ]
  /\ forall v,
       outcome (updateUser (server (Returns (OK_200 JANE))) JANE_ID
                  [ ("email", VStr "jane@x.com"); ("name", VStr "Jane");
                    ("role", VStr "admin") ])
       = Returns v ->
       is_User (server (Returns (OK_200 JANE))) v.
Proof.
  apply (updateUser_sends (server (Returns (OK_200 JANE))) JANE_ID
           [ ("email", VStr "jane@x.com"); ("name", VStr "Jane");
             ("role", VStr "admin") ]).
  - apply UUID_RE_test_canonical. reflexivity.
  - reflexivity.
  - reflexivity.
Defined.

(** X3.  Nothing is retried: [fetchData] and the helpers without a check
    issue exactly one request per call, and the helpers with a check
    issue one request when the check passes and none when it fails. *)
Theorem request_count (pf : Platform) :
  (forall url options, length (calls (fetchData pf url options)) = 1%nat)
  /\ length (calls (fetchPosts pf)) = 1%nat
  /\ (forall url data,
        length (calls (createResource pf url data)) = 1%nat
        /\ length (calls (updateResource pf url data)) = 1%nat
        /\ length (calls (patchResource pf url data)) = 1%nat)
  /\ (forall url, length (calls (deleteResource pf url)) = 1%nat)
  /\ (forall data, length (calls (createPost pf data)) = 1%nat)
  /\ (forall userId,
        length (calls (fetchUserById pf userId))
        = if UUID_RE_test userId then 1%nat else 0%nat)
  /\ (forall userId data,
        length (calls (updateUser pf userId data))
        = if UUID_RE_test userId && truthy (name data) && truthy (email data)
          then 1%nat else 0%nat)
  /\ (forall postId,
        length (calls (deletePost pf postId))
        = if UUID_RE_test postId then 1%nat else 0%nat).
Proof.
  assert (Hone : forall url options,
             length (calls (fetchData pf url options)) = 1%nat).
  { intros url options. settle. reflexivity. }
  assert (Hdel : forall url, length (calls (deleteResource pf url)) = 1%nat).
  { intros url. rewrite deleteResource_settles. unfold calls at 1.
    cbn [fst]. apply Hone. }
  split; [exact Hone|]. split; [apply Hone|].
  split; [intros; repeat split; apply Hone|].
  split; [exact Hdel|]. split; [intros; apply Hone|].
  split; [|split].
  - intros userId. unfold fetchUserById.
    destruct (UUID_RE_test userId); cbn [negb]; [apply Hone | reflexivity].
  - intros userId data. unfold updateUser.
    destruct (UUID_RE_test userId); cbn [negb andb]; [|reflexivity].
    destruct (truthy (name data)), (truthy (email data)); cbn [negb orb andb];
      first [apply Hone | reflexivity].
  - intros postId. unfold deletePost.
    destruct (UUID_RE_test postId); cbn [negb]; [apply Hdel | reflexivity].
Qed.

(** X1.  When [fetch] rejects with an [Error], or [json()] rejects with
    one on a 2xx response (with or without a schema), [fetchData] throws
    a [FetchError] that keeps the error's message and has neither status
    nor data; the error's name is not kept. *)
Theorem fetchData_wraps_errors (pf : Platform) (url : string)
  (options : option FetchOptions) (name message : string) :
  (fetch pf url (call_init (issued url options)) = Throws (JsError name message) ->
     fetchData pf url options
     = ([issued url options], Throws (FetchError message None VUndefined)))
  /\ (forall response,
        fetch pf url (call_init (issued url options)) = Returns response ->
        200 <= status response <= 299 ->
        json response = Throws (JsError name message) ->
        fetchData pf url options
        = ([issued url options], Throws (FetchError message None VUndefined))).
Proof.
  rewrite fetchData_settles. split.
  - intros ->. reflexivity.
  - intros response -> Hok ->. apply ok_spec in Hok. rewrite Hok. reflexivity.
Qed.

Lemma fetchData_wraps_errors_scenarios :
  fetchData (server (Throws (JsError "TypeError" "Failed to fetch")))
    "/api/posts" None
  = ([issued "/api/posts" None],
     Throws (FetchError "Failed to fetch" None VUndefined))
  /\ fetchData (server (Returns NO_CONTENT_204)) "/api/posts"
       (WITH_SCHEMA (userSchema (server (Returns NO_CONTENT_204))))
     = ([issued "/api/posts"
           (WITH_SCHEMA (userSchema (server (Returns NO_CONTENT_204))))],
        Throws (FetchError "Unexpected end of JSON input" None VUndefined)).
Proof.
  split.
  - apply (fetchData_wraps_errors
             (server (Throws (JsError "TypeError" "Failed to fetch")))
             "/api/posts" None "TypeError" "Failed to fetch").
    reflexivity.
  - apply (fetchData_wraps_errors (server (Returns NO_CONTENT_204))
             "/api/posts"
             (WITH_SCHEMA (userSchema (server (Returns NO_CONTENT_204))))
             "SyntaxError" "Unexpected end of JSON input") with NO_CONTENT_204.
    + reflexivity.
    + simpl. lia.
    + reflexivity.
Defined.

(** X2.  When the platform throws no [FetchError] of its own, a
    [FetchError] from [fetchData] that has a status is an HTTP failure: a
    response was received, its status is the one in the error, it is
    outside 200-299, and the message is the HTTP one. *)
Theorem fetchData_status_means_http_failure (pf : Platform) (url : string)
  (options : option FetchOptions) (message : string) (st : Z) (data : value) :
  foreign_errors pf url options ->
  outcome (fetchData pf url options) = Throws (FetchError message (Some st) data) ->
  exists response,
    fetch pf url (call_init (issued url options)) = Returns response
    /\ status response = st
    /\ ~ 200 <= st <= 299
    /\ message = "HTTP error! status: " +:+ pretty st.
Proof.
  intros (Hfetch & Hjson & Hparse). settle.
  assert (Hforeign : forall e, instanceof_FetchError e = false ->
            @Throws value (rethrown e)
            <> Throws (FetchError message (Some st) data)).
  { intros e He H. inversion H as [Hr]. destruct e; simpl in *; congruence. }
  destruct (fetch pf url _) as [response|e] eqn:Ef.
  - destruct (ok response) eqn:Hok.
    + destruct (json response) as [parsed|e] eqn:Ej.
      * destruct (schema _) as [s|] eqn:Es; [|discriminate].
        destruct (parse s parsed) as [w|e] eqn:Ep; [discriminate|].
        intros H. exfalso. revert H. apply Hforeign.
        apply (Hparse response parsed s e); auto.
      * intros H. exfalso. revert H. apply Hforeign.
        apply (Hjson response e); auto.
    + intros H. inversion H; subst. exists response.
      split; [reflexivity|]. split; [reflexivity|].
      split; [apply not_ok_spec, Hok | reflexivity].
  - intros H. exfalso. revert H. apply Hforeign, Hfetch. reflexivity.
Qed.

Lemma fetchData_status_means_http_failure_404 :
  exists response,
    fetch (server (Returns NOT_FOUND_404)) "/api/posts"
      (call_init (issued "/api/posts" None)) = Returns response
    /\ status response = 404
    /\ ~ 200 <= 404 <= 299
    /\ "HTTP error! status: 404" = "HTTP error! status: " +:+ pretty 404.
Proof.
  apply (fetchData_status_means_http_failure (server (Returns NOT_FOUND_404))
           "/api/posts" None "HTTP error! status: 404" 404 NOT_FOUND_BODY).
  - split; [|split].
    + intros e H. discriminate H.
    + intros response e H Hj. inversion H; subst. discriminate Hj.
    + intros response d s e _ _ Hs. discriminate Hs.
  - reflexivity.
Defined.

Section SchemaFailures.

(** A shape of schemas that fail with [ZodError]s only never ends the
    check early. *)
Lemma parse_shape_zod (shape : list (string * ZodType))
  (input : list (string * value)) :
  Forall (fun ks => zod_schema (snd ks)) shape ->
  exists out issues, z.parse_shape shape input = Returns (out, issues).
Proof.
  induction 1 as [|[key s] shape Hs Hshape IH]; cbn [z.parse_shape].
  - eauto.
  - destruct IH as (out & issues & ->). cbn [snd] in Hs.
    destruct (parse s (z.get key input)) as [v|e] eqn:Hp.
    + destruct v; eauto.
    + destruct (Hs _ _ Hp) as (i & found & ->). eauto.
Qed.

Lemma object_zod (shape : list (string * ZodType)) :
  Forall (fun ks => zod_schema (snd ks)) shape -> zod_schema (z.object shape).
Proof.
  intros Hshape v e.
  destruct v; cbn [parse z.object]; unfold z.invalid;
    try (intros H; inversion H; eauto; fail).
  destruct (parse_shape_zod shape fields Hshape) as (o & issues & Hp).
  rewrite Hp. destruct issues; [discriminate|]. intros H; inversion H; eauto.
Qed.

Lemma optional_zod (s : ZodType) : zod_schema s -> zod_schema (z.optional s).
Proof.
  intros Hs v e. destruct v; cbn [parse z.optional]; try apply Hs. discriminate.
Qed.

Lemma string_zod : zod_schema z.string_.
Proof.
  intros v e. destruct v; simpl; unfold z.invalid; intros H; inversion H; eauto.
Qed.

Lemma unknown_zod : zod_schema z.unknown.
Proof. intros v e. discriminate. Qed.

Lemma record_zod (s : ZodType) : zod_schema s -> zod_schema (z.record s).
Proof.
  intros Hs v e. destruct v; cbn [parse z.record]; unfold z.invalid;
    try (intros H; inversion H; eauto; fail).
  apply object_zod. apply Forall_forall. intros [k s'] Hin.
  apply list_elem_of_In, in_map_iff in Hin. destruct Hin as (kv & Heq & _).
  inversion Heq; subst. exact Hs.
Qed.

End SchemaFailures.

(** X16.  [apiErrorSchema] accepts an object only if its [message] is a
    string; [code] and [details] may be left out, and keys outside the
    shape are dropped from the result. *)
Theorem apiErrorSchema_message_required (input : list (string * value)) :
  (forall out, parse apiErrorSchema (VObj input) = Returns out ->
     exists m, z.get "message" input = VStr m)
  /\ (forall m, z.get "message" input = VStr m ->
        z.get "code" input = VUndefined ->
        z.get "details" input = VUndefined ->
        parse apiErrorSchema (VObj input) = Returns (VObj [("message", VStr m)]))
  /\ (forall m c, z.get "message" input = VStr m ->
        z.get "code" input = VStr c ->
        z.get "details" input = VUndefined ->
        parse apiErrorSchema (VObj input)
        = Returns (VObj [("message", VStr m); ("code", VStr c)])).
Proof.
  split; [|split].
  - intros out. unfold apiErrorSchema. cbn [parse z.object z.parse_shape].
    destruct (parse_shape_zod
                [("code", z.optional z.string_);
                 ("details", z.optional (z.record z.unknown))] input)
      as (o & issues & Hrest).
    { repeat apply Forall_cons_2; cbn [snd]; try apply Forall_nil_2;
        apply optional_zod; [apply string_zod | apply record_zod, unknown_zod]. }
    cbn [z.parse_shape] in Hrest. rewrite Hrest.
    destruct (z.get "message" input); cbn [parse z.string_ z.invalid];
      try discriminate.
    eauto.
  - intros m Hm Hc Hd. unfold apiErrorSchema.
    cbn [parse z.object z.parse_shape]. rewrite Hm, Hc, Hd. reflexivity.
  - intros m c Hm Hc Hd. unfold apiErrorSchema.
    cbn [parse z.object z.parse_shape]. rewrite Hm, Hc, Hd. reflexivity.
Qed.

(** The error envelope of scenario 2. *)
Lemma apiErrorSchema_not_found :
  parse apiErrorSchema NOT_FOUND_BODY = Returns NOT_FOUND_BODY.
Proof.
  apply (apiErrorSchema_message_required [("message", VStr "not found")]);
    reflexivity.
Defined.

(** X6.  [fetchUserById] never returns a body that is no user record: on
    a 2xx response whose parsed body is not an object with the four
    checked fields, it throws [FetchError("Response validation failed")]
    with no status and a [ZodError] of at least one issue as data. *)
Theorem fetchUserById_rejects_invalid (pf : Platform) (userId : string)
  (response : Response) (received : value) :
  canonical_uuid userId ->
  fetch pf ("/api/users/" +:+ userId) (call_init (GET_CALL ("/api/users/" +:+ userId)))
  = Returns response ->
  200 <= status response <= 299 ->
  json response = Returns received ->
  (forall input, received = VObj input ->
     ~ is_User pf (VObj [ ("id", z.get "id" input); ("name", z.get "name" input);
                          ("email", z.get "email" input);
                          ("createdAt", z.get "createdAt" input) ])) ->
  exists i issues,
    outcome (fetchUserById pf userId)
    = Throws (FetchError "Response validation failed" None
                (ZodError (i :: issues))).
Proof.
  intros Hid Hfetch Hok Hjson Hbad.
  apply UUID_RE_test_canonical in Hid. apply ok_spec in Hok.
  unfold fetchUserById. rewrite Hid. cbn [negb]. settle.
  change (call_init (issued ("/api/users/" +:+ userId) _))
    with (call_init (GET_CALL ("/api/users/" +:+ userId))).
  rewrite Hfetch, Hok, Hjson. simpl schema.
  destruct (parse (userSchema pf) received) as [out|e] eqn:Hp.
  - exfalso. apply userSchema_accepts in Hp.
    destruct Hp as (input & -> & -> & Huser). exact (Hbad input eq_refl Huser).
  - destruct (userSchema_zod pf _ _ Hp) as (i & issues & ->).
    exists i, issues. rewrite Hp. reflexivity.
Qed.

Lemma fetchUserById_rejects_null :
  exists i issues,
    outcome (fetchUserById (server (Returns (OK_200 VNull))) JANE_ID)
    = Throws (FetchError "Response validation failed" None
                (ZodError (i :: issues))).
Proof.
  apply (fetchUserById_rejects_invalid (server (Returns (OK_200 VNull))) JANE_ID
           (OK_200 VNull) VNull).
  - apply UUID_RE_test_canonical. reflexivity.
  - reflexivity.
  - simpl. lia.
  - reflexivity.
  - intros input H. discriminate H.
Defined.
